(** * EstonianTutor: the rule-based Estonian validator

    A shallow embedding of [server/services/estonian-validator.py]
    (class [EstonianValidator]) and the verification of its specification.

    Python values are modelled as the interpreter has them:
    - a [str] is a sequence of Unicode code points ([PyStr.t = list N]);
    - an [int] is unbounded ([Z]);
    - a [list] is a [list]; a [dict] literal is an association list in
      insertion order (the order [.items()] iterates in);
    - an exception is a value of [exn], carried by the [result] monad, so
      that "does not raise" is a statement about the model.                *)

From Stdlib Require Import String Ascii DecimalString.
From Stdlib Require Import List ZArith NArith Bool Lia.
Import ListNotations.

(* ================================================================== *)
(** ** Exceptions and the error monad *)

Inductive exn : Type :=
| IndexError
| KeyError
| ValueError.

Inductive result (A : Type) : Type :=
| Ok (a : A)
| Raise (e : exn).

Arguments Ok {A} a.
Arguments Raise {A} e.

Definition bind {A B : Type} (m : result A) (k : A -> result B) : result B :=
  match m with
  | Ok a => k a
  | Raise e => Raise e
  end.

Declare Scope py_scope.
Delimit Scope py_scope with py.
Notation "x <- m ;; k" := (bind m (fun x => k))
  (at level 61, m at next level, right associativity) : py_scope.
Open Scope py_scope.

(** A [for] loop whose body updates the loop-carried state and may raise. *)
Fixpoint for_each {A S : Type} (xs : list A) (body : S -> A -> result S)
                  (st : S) : result S :=
  match xs with
  | [] => Ok st
  | x :: rest => st' <- body st x ;; for_each rest body st'
  end.

(* ================================================================== *)
(** ** Python strings *)

Module PyStr.

(** A string is its sequence of code points. *)
Definition t : Type := list N.

Fixpoint eqb (a b : t) : bool :=
  match a, b with
  | [], [] => true
  | x :: a', y :: b' => N.eqb x y && eqb a' b'
  | _, _ => false
  end.

(** UTF-8 decoding of a source literal (the file is declared
    [coding: utf-8]); [need] continuation bytes are still expected for
    the code point accumulated in [acc]. *)
Fixpoint utf8_go (bs : list N) (acc : N) (need : nat) : t :=
  match bs with
  | [] => []
  | b :: bs' =>
      match need with
      | O =>
          if (b <? 128)%N then b :: utf8_go bs' 0%N 0
          else if (b <? 224)%N then utf8_go bs' (b mod 32)%N 1
          else if (b <? 240)%N then utf8_go bs' (b mod 16)%N 2
          else utf8_go bs' (b mod 8)%N 3
      | S O => (acc * 64 + b mod 64)%N :: utf8_go bs' 0%N 0
      | S n => utf8_go bs' (acc * 64 + b mod 64)%N n
      end
  end.

Definition lit (s : string) : t :=
  utf8_go (List.map N_of_ascii (list_ascii_of_string s)) 0%N 0.

(** [s.startswith(p)] *)
Fixpoint startswith (s p : t) : bool :=
  match p, s with
  | [], _ => true
  | y :: p', x :: s' => N.eqb x y && startswith s' p'
  | _ :: _, [] => false
  end.

(** [s.endswith(e)] *)
Definition endswith (s e : t) : bool :=
  (length e <=? length s)%nat && eqb (skipn (length s - length e) s) e.

(** [kw in s] for strings: [kw] occurs as a contiguous substring. *)
Fixpoint contains (s kw : t) : bool :=
  startswith s kw ||
  match s with
  | [] => false
  | _ :: s' => contains s' kw
  end.

(** [str.isspace] on one code point, the set [str.split()] separates on. *)
Definition isspace (c : N) : bool :=
  ((9 <=? c) && (c <=? 13) || (28 <=? c) && (c <=? 32)
   || (c =? 133) || (c =? 160) || (c =? 5760)
   || (8192 <=? c) && (c <=? 8202)
   || (c =? 8232) || (c =? 8233) || (c =? 8239) || (c =? 8287)
   || (c =? 12288))%N.

(** [s.split()]: maximal runs of non-whitespace; [tok] is the run being
    read, most recent code point first. *)
Fixpoint split_go (s : t) (tok : t) : list t :=
  match s with
  | [] => match tok with [] => [] | _ => [rev tok] end
  | c :: s' =>
      if isspace c
      then match tok with
           | [] => split_go s' []
           | _ => rev tok :: split_go s' []
           end
      else split_go s' (c :: tok)
  end.

Definition split (s : t) : list t := split_go s [].

Fixpoint dropwhile (p : N -> bool) (s : t) : t :=
  match s with
  | [] => []
  | c :: s' => if p c then dropwhile p s' else s
  end.

(** [s.rstrip(chars)]: every trailing code point that is in [chars] goes. *)
Definition rstrip (s chars : t) : t :=
  rev (dropwhile (fun c => existsb (N.eqb c) chars) (rev s)).

(** [str.lower] on an ASCII code point. *)
Definition ascii_lower (c : N) : N :=
  if ((65 <=? c) && (c <=? 90))%N then (c + 32)%N else c.

Section Lower.
(** The lower-case expansion of the non-ASCII code point at index [i]
    of [s], as the interpreter's Unicode database gives it (one to
    three code points; it looks at the context only for U+03A3). *)
Variable lower_nonascii : t -> nat -> list N.

Fixpoint lower_from (whole : t) (i : nat) (s : t) : t :=
  match s with
  | [] => []
  | c :: s' =>
      (if (c <? 128)%N then [ascii_lower c] else lower_nonascii whole i)
      ++ lower_from whole (S i) s'
  end.

(** [s.lower()] *)
Definition lower (s : t) : t := lower_from s 0 s.
End Lower.

(** [str(n)] for an [int]. *)
Definition of_int (n : Z) : t :=
  List.map N_of_ascii (list_ascii_of_string (NilZero.string_of_int (Z.to_int n))).

End PyStr.

Definition pystr : Type := PyStr.t.
Definition u : string -> pystr := PyStr.lit.

(* ================================================================== *)
(** ** Python lists and dicts *)

Local Open Scope Z_scope.

(** [len(l)] *)
Definition len {A : Type} (l : list A) : Z := Z.of_nat (List.length l).

(** [l[i]]: a negative index counts from the end; out of range raises. *)
Definition list_get {A : Type} (l : list A) (i : Z) : result A :=
  let j := if i <? 0 then i + len l else i in
  if j <? 0 then Raise IndexError
  else match nth_error l (Z.to_nat j) with
       | Some x => Ok x
       | None => Raise IndexError
       end.

(** [x in l] for a list of strings. *)
Definition list_in (x : pystr) (l : list pystr) : bool :=
  existsb (PyStr.eqb x) l.

(** [l.index(x)]: the first position of [x]; raises when there is none. *)
Fixpoint list_index_from (i : Z) (x : pystr) (l : list pystr) : result Z :=
  match l with
  | [] => Raise ValueError
  | y :: l' => if PyStr.eqb y x then Ok i else list_index_from (i + 1) x l'
  end.

Definition list_index (x : pystr) (l : list pystr) : result Z :=
  list_index_from 0 x l.

(** [enumerate(l)] *)
Fixpoint enumerate_from {A : Type} (i : Z) (l : list A) : list (Z * A) :=
  match l with
  | [] => []
  | x :: l' => (i, x) :: enumerate_from (i + 1) l'
  end.

Definition enumerate {A : Type} (l : list A) : list (Z * A) :=
  enumerate_from 0 l.

(** [range(n)]: empty when [n <= 0]. *)
Definition range (n : Z) : list Z :=
  List.map Z.of_nat (seq 0 (Z.to_nat n)).

(** A dict with string keys, in insertion order. *)
Definition dict (V : Type) : Type := list (pystr * V).

(** [k in d] *)
Definition dict_mem {V : Type} (k : pystr) (d : dict V) : bool :=
  existsb (fun kv => PyStr.eqb (fst kv) k) d.

(** [d[k]] *)
Fixpoint dict_get {V : Type} (k : pystr) (d : dict V) : result V :=
  match d with
  | [] => Raise KeyError
  | (k', v) :: d' => if PyStr.eqb k' k then Ok v else dict_get k d'
  end.

(* ================================================================== *)
(** ** The linguistic tables ([EstonianValidator.__init__]) *)

Definition cases : dict pystr :=
  [ (u"nom", u"nominatiiv"); (u"gen", u"genitiiv"); (u"part", u"partitiiv");
    (u"ill", u"illatiiv"); (u"ine", u"inessiiv"); (u"ela", u"elatiiv");
    (u"all", u"allatiiv"); (u"ade", u"adessiiv"); (u"abl", u"ablatiiv");
    (u"tra", u"translatiiv"); (u"ter", u"terminatiiv"); (u"ess", u"essiiv");
    (u"abe", u"abessiiv"); (u"com", u"komitatiiv") ].

Definition case_endings : dict (list pystr) :=
  [ (u"part", [u"t"; u"d"; u"i"; u"e"; u"a"; u"u"]);
    (u"gen", [u"i"; u"e"; u"a"; u"u"]);
    (u"ill", [u"sse"; u"de"; u"te"; u"ha"; u"hu"; u"i"]);
    (u"ine", [u"s"; u"es"; u"is"; u"as"]);
    (u"ela", [u"st"; u"est"; u"ist"; u"ast"]);
    (u"all", [u"le"; u"lle"]);
    (u"ade", [u"l"; u"el"; u"il"; u"al"; u"ul"]);
    (u"abl", [u"lt"; u"elt"; u"ilt"; u"alt"; u"ult"]);
    (u"tra", [u"ks"; u"eks"; u"iks"; u"aks"; u"uks"]);
    (u"com", [u"ga"]);
    (u"abe", [u"ta"]) ].

Record PronounEntry : Type := {
  person : Z;
  number : pystr;
  endings : list pystr
}.

Definition pronoun_verb_agreement : dict PronounEntry :=
  [ (u"ma", {| person := 1; number := u"sing"; endings := [u"n"] |});
    (u"sa", {| person := 2; number := u"sing"; endings := [u"d"] |});
    (u"ta", {| person := 3; number := u"sing"; endings := [u"b"; u"ø"] |});
    (u"me", {| person := 1; number := u"plur"; endings := [u"me"] |});
    (u"te", {| person := 2; number := u"plur"; endings := [u"te"] |});
    (u"nad", {| person := 3; number := u"plur"; endings := [u"vad"; u"id"] |}) ].

Record AdjectivePattern : Type := {
  adjective : list pystr;
  noun : list pystr
}.

Definition adjective_patterns : dict AdjectivePattern :=
  [ (u"partitive", {| adjective := [u"t"; u"at"; u"ut"; u"et"];
                      noun := [u"t"; u"i"; u"d"; u"e"; u"a"; u"u"] |});
    (u"genitive", {| adjective := [u"ø"; u"a"; u"e"];
                     noun := [u"i"; u"e"; u"a"; u"u"] |}) ].

(* ================================================================== *)
(** ** The checkers *)

(** The loop of [_check_verb_agreement] over [expected['endings']]. *)
Fixpoint verb_ending_loop (verb : pystr) (es : list pystr) : bool :=
  match es with
  | [] => false
  | ending :: rest =>
      if PyStr.eqb ending (u"ø") then verb_ending_loop verb rest
      else if PyStr.endswith verb ending then true
      else verb_ending_loop verb rest
  end.

Definition _check_verb_agreement (pronoun verb : pystr) : result bool :=
  if negb (dict_mem pronoun pronoun_verb_agreement) then Ok true
  else
    expected <- dict_get pronoun pronoun_verb_agreement ;;
    if PyStr.eqb pronoun (u"ta")
       && negb (existsb (PyStr.endswith verb)
                        [u"n"; u"d"; u"me"; u"te"; u"vad"])
    then Ok true
    else Ok (verb_ending_loop verb (endings expected)).

Definition _is_adjective_noun_pair (word1 word2 : pystr) : bool :=
  let adj_endings := [u"ne"; u"line"; u"lik"; u"kas"; u"ine"] in
  existsb (PyStr.endswith word1) adj_endings.

(** One turn of the loop of [_check_case_agreement]: does the row match? *)
Definition case_row_match (patterns : AdjectivePattern)
                          (adjective_ noun_ : pystr) : bool :=
  let adj_match := existsb (PyStr.endswith adjective_) (adjective patterns) in
  let noun_match := existsb (PyStr.endswith noun_) (noun patterns) in
  adj_match && noun_match.

Fixpoint case_agreement_loop (items : dict AdjectivePattern)
                             (adjective_ noun_ : pystr) : bool :=
  match items with
  | [] => false
  | (case_type, patterns) :: rest =>
      if case_row_match patterns adjective_ noun_ then true
      else case_agreement_loop rest adjective_ noun_
  end.

Definition _check_case_agreement (adjective_ noun_ : pystr) : bool :=
  case_agreement_loop adjective_patterns adjective_ noun_.

Definition case_keywords : list pystr :=
  [ u"partitiiv"; u"genitiiv"; u"illatiiv"; u"inessiiv";
    u"elatiiv"; u"allatiiv"; u"adessiiv"; u"ablatiiv";
    u"partitivo"; u"genitivo"; u"ilativo"; u"inessivo";
    u"caso"; u"requiere" ].

(** [group(1)] of [re.search(r"'([^']+)'", s)].  [span_unquoted s] is the
    longest apostrophe-free prefix of [s] and what follows it; the greedy
    [[^']+] can only be followed by an apostrophe after that whole run, and
    the search keeps the leftmost starting point that matches. *)
Definition apostrophe : N := 39%N.

Fixpoint span_unquoted (s : pystr) : pystr * pystr :=
  match s with
  | [] => ([], [])
  | c :: s' =>
      if N.eqb c apostrophe then ([], s)
      else let (run, rest) := span_unquoted s' in (c :: run, rest)
  end.

Fixpoint re_search_quoted (s : pystr) : option pystr :=
  match s with
  | [] => None
  | c :: s' =>
      if N.eqb c apostrophe
      then match span_unquoted s' with
           | ((_ :: _) as run, _ :: _) => Some run
           | _ => re_search_quoted s'
           end
      else re_search_quoted s'
  end.

(* ================================================================== *)
(** ** Findings, verdicts and the aggregator *)

(** An entry of [error_details]; the constructor is the ['type'] tag and
    the arguments are the other keys of the dict. *)
Inductive ErrorDetail : Type :=
| verb_agreement (word : pystr) (position : Z)
| case_agreement (words : list pystr) (positions : list Z)
| case_error (word : pystr) (position : Z).

(** The dict [validate_single_error] returns. *)
Record Verdict : Type := {
  valid : bool;
  error_count : Z;
  errors : list ErrorDetail;
  message : pystr
}.

(** The two variables the loops update: [error_count], [error_details]. *)
Definition counters : Type := (Z * list ErrorDetail)%type.

(** Body of [for i, word in enumerate(words)]. *)
Definition verb_loop_body (words : list pystr) (st : counters)
                          (iw : Z * pystr) : result counters :=
  let '(count, error_details) := st in
  let '(i, word) := iw in
  if dict_mem word pronoun_verb_agreement then
    let pronoun := word in
    if i + 1 <? len words then
      verb <- list_get words (i + 1) ;;
      agrees <- _check_verb_agreement pronoun verb ;;
      if negb agrees
      then Ok (count + 1, error_details ++ [verb_agreement verb (i + 1)])
      else Ok st
    else Ok st
  else Ok st.

(** Body of [for i in range(len(words) - 1)]; [words[i]] and
    [words[i + 1]] are read once, the list does not change in between. *)
Definition case_loop_body (words : list pystr) (st : counters)
                          (i : Z) : result counters :=
  let '(count, error_details) := st in
  w1 <- list_get words i ;;
  w2 <- list_get words (i + 1) ;;
  if _is_adjective_noun_pair w1 w2 then
    if negb (_check_case_agreement w1 w2)
    then Ok (count + 2, error_details ++ [case_agreement [w1; w2] [i; i + 1]])
    else Ok st
  else Ok st.

(** Record of one quiz question (the boundary contract gives each record
    the three string fields). *)
Record Question : Type := {
  question : pystr;
  correctAnswer : pystr;
  explanation : pystr
}.

(** [quiz_data]: the ['questions'] key may be missing. *)
Record QuizData : Type := {
  questions : option (list Question)
}.

(** One entry of [results]. *)
Module Detail.
Record t : Type := {
  question : pystr;
  sentence : pystr;
  error_word : pystr;
  validation : Verdict
}.
End Detail.

(** The dict [analyze_error_detection_quiz] returns. *)
Record QuizSummary : Type := {
  total_questions : Z;
  valid_questions : Z;
  invalid_questions : Z;
  details : list Detail.t;
  all_valid : bool
}.

(** [quiz_data.get('questions', [])] *)
Definition get_questions (quiz_data : QuizData) : list Question :=
  match questions quiz_data with
  | Some l => l
  | None => []
  end.

(** [sum(1 for r in results if p(r))] *)
Definition sum_ones {A : Type} (p : A -> bool) (l : list A) : Z :=
  fold_left Z.add (List.map (fun _ => 1) (filter p l)) 0.

Section Validator.

(** The interpreter's Unicode lower-casing outside ASCII; see [PyStr.lower]. *)
Variable lower_nonascii : pystr -> nat -> list N.

Definition _is_case_error (word explanation_ : pystr) : bool :=
  existsb (fun kw => PyStr.contains (PyStr.lower lower_nonascii explanation_) kw)
          case_keywords.

(** The [if error_word in words:] block. *)
Definition case_error_step (words : list pystr) (error_word explanation_ : pystr)
                           (st : counters) : result counters :=
  let '(count, error_details) := st in
  if list_in error_word words then
    idx <- list_index error_word words ;;
    if _is_case_error error_word explanation_
    then Ok (count + 1, error_details ++ [case_error error_word idx])
    else Ok st
  else Ok st.

Definition validate_single_error (sentence error_word explanation_ : pystr)
  : result Verdict :=
  let words := PyStr.split sentence in
  let st0 : counters := (0, []) in
  st1 <- for_each (enumerate words) (verb_loop_body words) st0 ;;
  st2 <- for_each (range (len words - 1)) (case_loop_body words) st1 ;;
  st3 <- case_error_step words error_word explanation_ st2 ;;
  let '(count, error_details) := st3 in
  Ok {| valid := count =? 1;
        error_count := count;
        errors := error_details;
        message := if count =? 1 then u"Single error detected"
                   else u"Multiple errors detected: " ++ PyStr.of_int count |}.

(** Body of [for question in quiz_data.get('questions', [])]. *)
Definition quiz_loop_body (results : list Detail.t) (q : Question)
  : result (list Detail.t) :=
  match re_search_quoted (question q) with
  | None => Ok results
  | Some sentence =>
      let error_word := correctAnswer q in
      let explanation_ := explanation q in
      validation <- validate_single_error sentence error_word explanation_ ;;
      Ok (results ++ [ {| Detail.question := question q;
                          Detail.sentence := sentence;
                          Detail.error_word := error_word;
                          Detail.validation := validation |} ])
  end.

Definition analyze_error_detection_quiz (quiz_data : QuizData)
  : result QuizSummary :=
  results <- for_each (get_questions quiz_data) quiz_loop_body [] ;;
  let valid_count := sum_ones (fun r => valid (Detail.validation r)) results in
  Ok {| total_questions := len results;
        valid_questions := valid_count;
        invalid_questions := len results - valid_count;
        details := results;
        all_valid := valid_count =? len results |}.

End Validator.

(** The [if]/[elif] chain under "Generate correct verb form"; no branch
    taken falls through to the final [return None]. *)
Definition generate_verb_form (pronoun error_word : pystr) : option pystr :=
  if PyStr.eqb pronoun (u"ma") then Some (error_word ++ u"n")
  else if PyStr.eqb pronoun (u"sa") then Some (error_word ++ u"d")
  else if PyStr.eqb pronoun (u"ta")
    then Some (PyStr.rstrip (PyStr.rstrip error_word (u"n")) (u"d"))
  else if PyStr.eqb pronoun (u"me") then Some (error_word ++ u"me")
  else if PyStr.eqb pronoun (u"te") then Some (error_word ++ u"te")
  else if PyStr.eqb pronoun (u"nad") then Some (error_word ++ u"vad")
  else None.

Definition suggest_fix (sentence error_word : pystr) : result (option pystr) :=
  let words := PyStr.split sentence in
  if negb (list_in error_word words) then Ok None
  else
    idx <- list_index error_word words ;;
    if 0 <? idx then
      prev <- list_get words (idx - 1) ;;
      if dict_mem prev pronoun_verb_agreement then
        pronoun <- list_get words (idx - 1) ;;
        expected <- dict_get pronoun pronoun_verb_agreement ;;
        Ok (generate_verb_form pronoun error_word)
      else Ok None
    else Ok None.

(** A lower-casing table that maps every non-ASCII code point to itself,
    to run the validator on concrete inputs. *)
Definition lower_keep : pystr -> nat -> list N :=
  fun s i => match nth_error s i with Some c => [c] | None => [] end.


(* ================================================================== *)
(** ** Vocabulary of the specification *)

(** [s] ends with the suffix [e]. *)
Definition ends_with (s e : pystr) : Prop := exists p, s = p ++ e.

(** The weight of a finding in [error_count]. *)
Definition weight (f : ErrorDetail) : Z :=
  match f with
  | verb_agreement _ _ => 1
  | case_agreement _ _ => 2
  | case_error _ _ => 1
  end.

Definition is_verb_agreement (f : ErrorDetail) : bool :=
  match f with verb_agreement _ _ => true | _ => false end.
Definition is_case_agreement (f : ErrorDetail) : bool :=
  match f with case_agreement _ _ => true | _ => false end.
Definition is_case_error (f : ErrorDetail) : bool :=
  match f with case_error _ _ => true | _ => false end.

(** How many findings of a list satisfy [p]. *)
Definition count_findings (p : ErrorDetail -> bool) (l : list ErrorDetail) : Z :=
  len (filter p l).

(** [w] is a key of the pronoun table. *)
Definition known_pronoun (w : pystr) : Prop :=
  In w (List.map fst pronoun_verb_agreement).

(** Where a finding comes from: the tokens and the checks behind it. *)
Definition finding_origin (is_case_error_ : pystr -> bool)
                          (words : list pystr) (error_word : pystr)
                          (f : ErrorDetail) : Prop :=
  match f with
  | verb_agreement verb pos =>
      exists i pronoun,
        0 <= i /\ pos = i + 1 /\
        nth_error words (Z.to_nat i) = Some pronoun /\
        nth_error words (Z.to_nat (i + 1)) = Some verb /\
        known_pronoun pronoun /\
        _check_verb_agreement pronoun verb = Ok false
  | case_agreement ws ps =>
      exists i w1 w2,
        0 <= i /\ ps = [i; i + 1] /\ ws = [w1; w2] /\
        nth_error words (Z.to_nat i) = Some w1 /\
        nth_error words (Z.to_nat (i + 1)) = Some w2 /\
        _is_adjective_noun_pair w1 w2 = true /\
        _check_case_agreement w1 w2 = false
  | case_error w pos =>
      w = error_word /\ list_index error_word words = Ok pos /\
      is_case_error_ error_word = true
  end.

(** The weighted sum the specification gives for [error_count]. *)
Definition total_weight (l : list ErrorDetail) : Z :=
  count_findings is_verb_agreement l * 1
  + count_findings is_case_agreement l * 2
  + count_findings is_case_error l * 1.

(** The invariant of the aggregator's loops: the counter is the weighted
    sum of the findings collected so far, and each finding has its origin
    in [words]. *)
Definition counters_inv (is_case_error_ : pystr -> bool)
                        (words : list pystr) (error_word : pystr)
                        (st : counters) : Prop :=
  fst st = total_weight (snd st) /\
  Forall (finding_origin is_case_error_ words error_word) (snd st).

(** [m] is a single-quoted segment of the text [s]: an apostrophe, the
    one or more code points of [m], none of them an apostrophe, and an
    apostrophe. *)
Definition segment_of (m s : pystr) : Prop :=
  exists a b,
    s = a ++ apostrophe :: m ++ apostrophe :: b /\ m <> [] /\ ~ In apostrophe m.

(** The text holds a single-quoted segment. *)
Definition quoted_segment (s : pystr) : Prop := exists m, segment_of m s.

(** [Selects qs ds]: [ds] lists, in order, one entry for each record of
    [qs] that holds a quoted segment and nothing for the others. *)
Inductive Selects : list Question -> list Detail.t -> Prop :=
| Selects_nil : Selects [] []
| Selects_keep q qs d ds :
    segment_of (Detail.sentence d) (question q) ->
    Detail.question d = question q ->
    Detail.error_word d = correctAnswer q ->
    Selects qs ds -> Selects (q :: qs) (d :: ds)
| Selects_skip q qs ds :
    ~ quoted_segment (question q) ->
    Selects qs ds -> Selects (q :: qs) ds.

(** [CountQuoted qs n]: [n] records of [qs] hold a quoted segment. *)
Inductive CountQuoted : list Question -> Z -> Prop :=
| CountQuoted_nil : CountQuoted [] 0
| CountQuoted_yes q qs n :
    quoted_segment (question q) -> CountQuoted qs n -> CountQuoted (q :: qs) (n + 1)
| CountQuoted_no q qs n :
    ~ quoted_segment (question q) -> CountQuoted qs n -> CountQuoted (q :: qs) n.

(** [error_word] is a token of [sentence], and the token just before its
    first occurrence is [pronoun]. *)
Definition first_preceded_by (sentence error_word pronoun : pystr) : Prop :=
  exists pre post,
    PyStr.split sentence = pre ++ pronoun :: error_word :: post /\
    ~ In error_word (pre ++ [pronoun]).

(** The normalisation the specification words for the pronoun "ta": one
    trailing "n", or else one trailing "d", is removed when there is one. *)
Definition strip_one_suffix (w : pystr) : pystr :=
  if PyStr.endswith w (u"n") || PyStr.endswith w (u"d") then removelast w else w.

(** *** The loops of the aggregator, turn by turn

    What one turn of each loop appends to [error_details], read as a list
    (empty when the turn adds nothing). *)

Definition verb_findings_at (words : list pystr) (iw : Z * pystr)
  : list ErrorDetail :=
  let '(i, word) := iw in
  if dict_mem word pronoun_verb_agreement then
    match nth_error words (Z.to_nat (i + 1)) with
    | Some verb =>
        match _check_verb_agreement word verb with
        | Ok false => [verb_agreement verb (i + 1)]
        | _ => []
        end
    | None => []
    end
  else [].

Definition case_findings_at (words : list pystr) (i : Z) : list ErrorDetail :=
  match nth_error words (Z.to_nat i), nth_error words (Z.to_nat (i + 1)) with
  | Some w1, Some w2 =>
      if _is_adjective_noun_pair w1 w2 && negb (_check_case_agreement w1 w2)
      then [case_agreement [w1; w2] [i; i + 1]]
      else []
  | _, _ => []
  end.

Definition case_error_finding (is_case_error_ : pystr -> bool)
                              (words : list pystr) (error_word : pystr)
  : list ErrorDetail :=
  if list_in error_word words && is_case_error_ error_word then
    match list_index error_word words with
    | Ok idx => [case_error error_word idx]
    | Raise _ => []
    end
  else [].

(** The findings of a whole run, in the order the three blocks add them. *)
Definition findings_of (is_case_error_ : pystr -> bool)
                       (words : list pystr) (error_word : pystr)
  : list ErrorDetail :=
  flat_map (verb_findings_at words) (enumerate words)
  ++ flat_map (case_findings_at words) (range (len words - 1))
  ++ case_error_finding is_case_error_ words error_word.

(** The verb agreement check of [pronoun] and [verb] returns, and it
    returns true exactly when [P] holds. *)
Definition agrees_iff (pronoun verb : pystr) (P : Prop) : Prop :=
  exists b, _check_verb_agreement pronoun verb = Ok b /\ (b = true <-> P).

(** The first word passes the adjective-shape gate. *)
Definition adjective_shaped (w : pystr) : Prop :=
  _is_adjective_noun_pair w [] = true.

(** Every code point of the string is ASCII. *)
Definition ascii_only (s : pystr) : Prop := Forall (fun c => (c < 128)%N) s.

(** [error_word] first occurs in [words] after the tokens [pre]. *)
Definition first_occurrence (error_word : pystr) (words pre : list pystr) : Prop :=
  exists post, words = pre ++ error_word :: post /\ ~ In error_word pre.

(* ================================================================== *)
(** ** Strings and lists: basic facts *)

Example lit_ascii : u"ta" = [116; 97]%N.
Proof. reflexivity. Qed.

Example lit_two_bytes : u"ø" = [248]%N /\ u"näed" = [110; 228; 101; 100]%N.
Proof. split; reflexivity. Qed.

Example split_runs :
  PyStr.split (u"  ma näed   raamatut ") = [u"ma"; u"näed"; u"raamatut"].
Proof. reflexivity. Qed.

Example lower_ascii (lna : pystr -> nat -> list N) :
  PyStr.lower lna (u"Peab Olema PARTITIIV") = u"peab olema partitiiv".
Proof. reflexivity. Qed.

Example of_int_digits : PyStr.of_int 0 = u"0" /\ PyStr.of_int 12 = u"12".
Proof. split; reflexivity. Qed.

Example rstrip_run : PyStr.rstrip (u"linn") (u"n") = u"li".
Proof. reflexivity. Qed.

Example re_search_leftmost :
  re_search_quoted (u"Leia viga: 'ma näed raamatut' ja 'teine'") = Some (u"ma näed raamatut")
  /\ re_search_quoted (u"a '' b 'c") = Some (u" b ")
  /\ re_search_quoted (u"a 'x b c") = None
  /\ re_search_quoted (u"tühi '' lause") = None.
Proof. repeat split. Qed.

Example get_negative_index :
  list_get [u"ma"; u"tule"] (-1) = Ok (u"tule") /\
  list_get [u"ma"; u"tule"] 2 = Raise IndexError /\
  list_index (u"x") [u"ma"; u"tule"] = Raise ValueError.
Proof. repeat split. Qed.

Lemma eqb_eq (a b : pystr) : PyStr.eqb a b = true <-> a = b.
Proof.
  revert b; induction a as [|x a IH]; intros [|y b]; simpl;
    try (split; [discriminate | discriminate]); try tauto.
  rewrite andb_true_iff, N.eqb_eq, IH. split.
  - intros [-> ->]; reflexivity.
  - intros H; injection H; auto.
Qed.

Lemma eqb_refl (a : pystr) : PyStr.eqb a a = true.
Proof. apply eqb_eq; reflexivity. Qed.

Lemma eqb_neq (a b : pystr) : PyStr.eqb a b = false <-> a <> b.
Proof.
  rewrite <- eqb_eq. destruct (PyStr.eqb a b); split; congruence.
Qed.

Lemma endswith_spec (s e : pystr) : PyStr.endswith s e = true <-> ends_with s e.
Proof.
  unfold PyStr.endswith, ends_with. rewrite andb_true_iff, Nat.leb_le, eqb_eq.
  split.
  - intros [_ H]. exists (firstn (List.length s - List.length e) s).
    pose proof (firstn_skipn (List.length s - List.length e) s) as F.
    rewrite H in F. symmetry; exact F.
  - intros [p ->]. rewrite length_app. split; [lia|].
    replace (List.length p + List.length e - List.length e)%nat
      with (List.length p + 0)%nat by lia.
    rewrite skipn_app, skipn_all2 by lia.
    replace (List.length p + 0 - List.length p)%nat with 0%nat by lia.
    reflexivity.
Qed.

Lemma existsb_endswith (s : pystr) (es : list pystr) :
  existsb (PyStr.endswith s) es = true <-> exists e, In e es /\ ends_with s e.
Proof.
  rewrite existsb_exists. split; intros (e & He & H); exists e;
    (split; [assumption | apply endswith_spec; assumption]).
Qed.

Lemma list_in_spec (x : pystr) (l : list pystr) : list_in x l = true <-> In x l.
Proof.
  unfold list_in. rewrite existsb_exists. split.
  - intros (y & Hy & E). apply eqb_eq in E. subst; assumption.
  - intros H. exists x. split; [assumption | apply eqb_refl].
Qed.

Lemma dict_mem_spec {V : Type} (k : pystr) (d : dict V) :
  dict_mem k d = true <-> In k (List.map fst d).
Proof.
  unfold dict_mem. rewrite existsb_exists, in_map_iff. split.
  - intros ((k', v) & Hin & E). apply eqb_eq in E. exists (k', v); auto.
  - intros ((k', v) & E & Hin). exists (k', v). split; [assumption|].
    apply eqb_eq; assumption.
Qed.

Lemma dict_get_mem {V : Type} (k : pystr) (d : dict V) :
  dict_mem k d = true -> exists v, dict_get k d = Ok v.
Proof.
  induction d as [|[k' v] d IH]; simpl; [discriminate|].
  destruct (PyStr.eqb k' k); simpl; eauto.
Qed.

Lemma len_nonneg {A : Type} (l : list A) : 0 <= len l.
Proof. unfold len; lia. Qed.

Lemma list_get_nth {A : Type} (l : list A) (i : Z) (x : A) :
  0 <= i -> nth_error l (Z.to_nat i) = Some x -> list_get l i = Ok x.
Proof.
  intros Hi H. unfold list_get.
  destruct (Z.ltb_spec i 0); [lia|].
  destruct (Z.ltb_spec i 0); [lia|]. rewrite H; reflexivity.
Qed.

Lemma list_get_in_range {A : Type} (l : list A) (i : Z) :
  0 <= i < len l ->
  exists x, nth_error l (Z.to_nat i) = Some x /\ list_get l i = Ok x.
Proof.
  intros [Hi Hl]. unfold len in Hl.
  destruct (nth_error l (Z.to_nat i)) as [x|] eqn:E.
  - exists x; split; [reflexivity | apply list_get_nth; assumption].
  - apply nth_error_None in E. lia.
Qed.

Lemma enumerate_from_In {A : Type} (l : list A) (k i : Z) (x : A) :
  In (i, x) (enumerate_from k l) ->
  k <= i < k + len l /\ nth_error l (Z.to_nat (i - k)) = Some x.
Proof.
  revert k; induction l as [|y l IH]; intros k; simpl; [tauto|].
  unfold len; simpl List.length. intros [E | H].
  - injection E as <- <-. rewrite Z.sub_diag. split; [lia | reflexivity].
  - apply IH in H. unfold len in H. destruct H as [Hr Hn]. split; [lia|].
    replace (Z.to_nat (i - k)) with (S (Z.to_nat (i - (k + 1)))) by lia.
    exact Hn.
Qed.

Lemma enumerate_In {A : Type} (l : list A) (i : Z) (x : A) :
  In (i, x) (enumerate l) ->
  0 <= i < len l /\ nth_error l (Z.to_nat i) = Some x.
Proof.
  intros H. apply enumerate_from_In in H. rewrite Z.sub_0_r in H. exact H.
Qed.

Lemma range_In (n i : Z) : In i (range n) -> 0 <= i < n.
Proof.
  unfold range. rewrite in_map_iff. intros (k & <- & H).
  apply in_seq in H. lia.
Qed.

(** A loop whose body preserves [P] on the elements it meets runs to its
    end without raising, and [P] holds of the final state. *)
Lemma for_each_inv {A S : Type} (P : S -> Prop) (Q : A -> Prop)
      (body : S -> A -> result S) (xs : list A) :
  (forall x, In x xs -> Q x) ->
  (forall st x, Q x -> P st -> exists st', body st x = Ok st' /\ P st') ->
  forall st, P st -> exists st', for_each xs body st = Ok st' /\ P st'.
Proof.
  intros HQ Hbody. induction xs as [|x xs IH]; intros st Hst; simpl.
  - exists st; auto.
  - destruct (Hbody st x) as (st1 & E & H1); [apply HQ; left; reflexivity | assumption |].
    rewrite E; simpl. apply IH; [|assumption].
    intros y Hy. apply HQ; right; assumption.
Qed.

(** *** The weighted sum *)

Lemma total_weight_nil : total_weight [] = 0.
Proof. reflexivity. Qed.

Lemma total_weight_snoc (l : list ErrorDetail) (f : ErrorDetail) :
  total_weight (l ++ [f]) = total_weight l + weight f.
Proof.
  unfold total_weight, count_findings, len.
  rewrite !filter_app, !length_app.
  destruct f; simpl; lia.
Qed.

(** *** The pronoun table *)

Lemma known_pronoun_mem (w : pystr) :
  dict_mem w pronoun_verb_agreement = true <-> known_pronoun w.
Proof. apply dict_mem_spec. Qed.

Lemma known_pronoun_cases (w : pystr) :
  known_pronoun w ->
  w = u"ma" \/ w = u"sa" \/ w = u"ta" \/ w = u"me" \/ w = u"te" \/ w = u"nad".
Proof.
  unfold known_pronoun; simpl. intuition auto.
Qed.

Lemma check_verb_agreement_total (pronoun verb : pystr) :
  exists b, _check_verb_agreement pronoun verb = Ok b.
Proof.
  unfold _check_verb_agreement.
  destruct (dict_mem pronoun pronoun_verb_agreement) eqn:M; cbn [negb]; [|eauto].
  destruct (dict_get_mem _ _ M) as (v & ->). cbn [bind].
  match goal with |- context [if ?c then _ else _] => destruct c end; eauto.
Qed.

(** No key of the pronoun table passes the adjective-shape gate. *)
Lemma pronoun_not_adjective_shaped (w w2 : pystr) :
  known_pronoun w -> _is_adjective_noun_pair w w2 = false.
Proof.
  intros H. apply known_pronoun_cases in H.
  destruct H as [-> | [-> | [-> | [-> | [-> | ->]]]]]; reflexivity.
Qed.

(* ================================================================== *)
(** ** The aggregator: what every run establishes *)

Section Aggregator.

Variable is_case_error_ : pystr -> bool.
Variables (words : list pystr) (error_word : pystr).

Local Abbreviation inv := (counters_inv is_case_error_ words error_word).

Lemma counters_inv_init : inv (0, []).
Proof. split; [reflexivity | constructor]. Qed.

Lemma counters_inv_snoc (count : Z) (l : list ErrorDetail) (f : ErrorDetail) :
  inv (count, l) ->
  finding_origin is_case_error_ words error_word f ->
  inv (count + weight f, l ++ [f]).
Proof.
  intros [Hc Hl] Hf. split; simpl in *.
  - rewrite total_weight_snoc. lia.
  - apply Forall_app. split; [assumption | constructor; [assumption | constructor]].
Qed.

Lemma verb_loop_body_inv (st : counters) (iw : Z * pystr) :
  (0 <= fst iw < len words /\ nth_error words (Z.to_nat (fst iw)) = Some (snd iw)) ->
  inv st ->
  exists st', verb_loop_body words st iw = Ok st' /\ inv st'.
Proof.
  destruct st as [count l], iw as [i word]. simpl fst; simpl snd.
  intros [Hi Hw] Hinv. unfold verb_loop_body.
  destruct (dict_mem word pronoun_verb_agreement) eqn:M; [|eauto].
  destruct (Z.ltb_spec (i + 1) (len words)) as [Hlt|]; [|eauto].
  destruct (list_get_in_range words (i + 1)) as (verb & Hn & ->); [lia|].
  simpl. destruct (check_verb_agreement_total word verb) as ([|] & E);
    rewrite E; simpl; [eauto|].
  eexists; split; [reflexivity|].
  apply (counters_inv_snoc count l (verb_agreement verb (i + 1))); [assumption|].
  exists i, word. repeat split; try assumption; try lia.
  apply known_pronoun_mem; assumption.
Qed.

Lemma case_loop_body_inv (st : counters) (i : Z) :
  0 <= i < len words - 1 ->
  inv st ->
  exists st', case_loop_body words st i = Ok st' /\ inv st'.
Proof.
  destruct st as [count l]. intros Hi Hinv. unfold case_loop_body.
  destruct (list_get_in_range words i) as (w1 & Hn1 & ->); [lia|].
  destruct (list_get_in_range words (i + 1)) as (w2 & Hn2 & ->); [lia|].
  simpl.
  destruct (_is_adjective_noun_pair w1 w2) eqn:Hadj; [|eauto].
  destruct (_check_case_agreement w1 w2) eqn:Hagr; simpl; [eauto|].
  eexists; split; [reflexivity|].
  apply (counters_inv_snoc count l (case_agreement [w1; w2] [i; i + 1]));
    [assumption|].
  exists i, w1, w2. repeat split; try assumption; lia.
Qed.

End Aggregator.

Lemma list_index_from_first (k : Z) (x : pystr) (pre post : list pystr) :
  ~ In x pre -> list_index_from k x (pre ++ x :: post) = Ok (k + len pre).
Proof.
  revert k; induction pre as [|y pre IH]; intros k Hn; simpl.
  - rewrite eqb_refl. unfold len; simpl. f_equal; lia.
  - destruct (PyStr.eqb y x) eqn:E.
    + apply eqb_eq in E. exfalso; apply Hn; left; assumption.
    + rewrite IH by (intros H; apply Hn; right; assumption).
      unfold len; simpl List.length. f_equal; lia.
Qed.

Lemma list_index_total (x : pystr) (l : list pystr) :
  list_in x l = true -> exists idx, list_index x l = Ok idx.
Proof.
  intros H. apply list_in_spec in H.
  assert (G : exists pre post, l = pre ++ x :: post /\ ~ In x pre).
  { induction l as [|y l IH]; [destruct H|].
    destruct (PyStr.eqb y x) eqn:E.
    - apply eqb_eq in E; subst y. exists [], l. split; [reflexivity | intros []].
    - apply eqb_neq in E. destruct H as [H|H]; [congruence|].
      destruct (IH H) as (pre & post & -> & Hn).
      exists (y :: pre), post. split; [reflexivity|].
      intros [F|F]; [congruence | exact (Hn F)]. }
  destruct G as (pre & post & -> & Hn).
  eexists. apply list_index_from_first; assumption.
Qed.

Section AggregatorRun.

Variable lower_nonascii : pystr -> nat -> list N.

Lemma case_error_step_inv (words : list pystr) (error_word explanation_ : pystr)
      (st : counters) :
  counters_inv (fun w => _is_case_error lower_nonascii w explanation_)
               words error_word st ->
  exists st',
    case_error_step lower_nonascii words error_word explanation_ st = Ok st' /\
    counters_inv (fun w => _is_case_error lower_nonascii w explanation_)
                 words error_word st'.
Proof.
  destruct st as [count l]. intros Hinv. unfold case_error_step.
  destruct (list_in error_word words) eqn:Hin; [|eauto].
  destruct (list_index_total _ _ Hin) as (idx & E). rewrite E. cbn [bind].
  destruct (_is_case_error lower_nonascii error_word explanation_) eqn:C; [|eauto].
  eexists; split; [reflexivity|].
  apply (counters_inv_snoc _ words error_word count l (case_error error_word idx));
    [assumption|].
  repeat split; assumption.
Qed.

(** Every call returns a verdict, built from a final pair of counters
    that satisfies the loop invariant. *)
Lemma validate_single_error_run (sentence error_word explanation_ : pystr) :
  exists count l,
    validate_single_error lower_nonascii sentence error_word explanation_
    = Ok {| valid := count =? 1;
            error_count := count;
            errors := l;
            message := if count =? 1 then u"Single error detected"
                       else u"Multiple errors detected: " ++ PyStr.of_int count |}
    /\ counters_inv (fun w => _is_case_error lower_nonascii w explanation_)
                    (PyStr.split sentence) error_word (count, l).
Proof.
  unfold validate_single_error.
  set (words := PyStr.split sentence).
  set (inv := counters_inv (fun w => _is_case_error lower_nonascii w explanation_)
                           words error_word).
  destruct (for_each_inv inv
              (fun iw => 0 <= fst iw < len words /\
                         nth_error words (Z.to_nat (fst iw)) = Some (snd iw))
              (verb_loop_body words) (enumerate words)) with (st := ((0, []) : counters))
    as (st1 & E1 & I1).
  { intros [i w] H. apply enumerate_In in H. exact H. }
  { intros st x. apply verb_loop_body_inv. }
  { apply counters_inv_init. }
  rewrite E1; cbn [bind].
  destruct (for_each_inv inv (fun i => 0 <= i < len words - 1)
              (case_loop_body words) (range (len words - 1))) with (st := st1)
    as (st2 & E2 & I2).
  { intros i. apply range_In. }
  { intros st x. apply case_loop_body_inv. }
  { exact I1. }
  rewrite E2; cbn [bind].
  destruct (case_error_step_inv words error_word explanation_ st2 I2)
    as ([count l] & E3 & I3).
  rewrite E3; cbn [bind].
  exists count, l. split; [reflexivity | exact I3].
Qed.

End AggregatorRun.

(* ================================================================== *)
(** ** The aggregator: the verdict *)

(** Concrete runs at total weight 0, 1, 2 and 3. *)
Example run_weight_0 (lna : pystr -> nat -> list N) :
  validate_single_error lna (u"suur maja") (u"kass") (u"")
  = Ok {| valid := false; error_count := 0; errors := [];
          message := u"Multiple errors detected: 0" |}.
Proof. reflexivity. Qed.

Example run_weight_1 (lna : pystr -> nat -> list N) :
  validate_single_error lna (u"ma näed") (u"näed") (u"")
  = Ok {| valid := true; error_count := 1;
          errors := [verb_agreement (u"näed") 1];
          message := u"Single error detected" |}.
Proof. reflexivity. Qed.

Example run_weight_2 (lna : pystr -> nat -> list N) :
  validate_single_error lna (u"ma näed raamatut") (u"näed") (u"peab olema partitiiv")
  = Ok {| valid := false; error_count := 2;
          errors := [verb_agreement (u"näed") 1; case_error (u"näed") 1];
          message := u"Multiple errors detected: 2" |}.
Proof. reflexivity. Qed.

Example run_weight_3 (lna : pystr -> nat -> list N) :
  validate_single_error lna (u"ma punane raamat") (u"kass") (u"")
  = Ok {| valid := false; error_count := 3;
          errors := [verb_agreement (u"punane") 1;
                     case_agreement [u"punane"; u"raamat"] [1; 2]];
          message := u"Multiple errors detected: 3" |}.
Proof. reflexivity. Qed.

(** C1. For every sentence, error word and explanation, the verdict of
    [validate_single_error] has [valid] true exactly when [error_count] is
    1; in particular [valid] is false when [error_count] is 0, 2 or 3. *)
Theorem valid_iff_error_count_one
        (lna : pystr -> nat -> list N) (sentence error_word explanation_ : pystr) :
  exists v,
    validate_single_error lna sentence error_word explanation_ = Ok v /\
    (valid v = true <-> error_count v = 1) /\
    (error_count v = 0 \/ error_count v = 2 \/ error_count v = 3 -> valid v = false).
Proof.
  destruct (validate_single_error_run lna sentence error_word explanation_)
    as (count & l & E & _).
  eexists; split; [exact E|]. cbn [valid error_count]. split.
  - apply Z.eqb_eq.
  - intros H. apply Z.eqb_neq. lia.
Qed.

(** C2. For every input, [error_count] is the number of verb_agreement
    findings times 1, plus the number of case_agreement findings times 2,
    plus the number of case_error findings times 1, the findings being
    those of the [errors] field of the same verdict. *)
Theorem error_count_is_weighted_sum
        (lna : pystr -> nat -> list N) (sentence error_word explanation_ : pystr) :
  exists v,
    validate_single_error lna sentence error_word explanation_ = Ok v /\
    error_count v
    = count_findings is_verb_agreement (errors v) * 1
      + count_findings is_case_agreement (errors v) * 2
      + count_findings is_case_error (errors v) * 1.
Proof.
  destruct (validate_single_error_run lna sentence error_word explanation_)
    as (count & l & E & Hw & _).
  eexists; split; [exact E|]. exact Hw.
Qed.

(** C5. [validate_single_error] never raises: on every triple of strings
    it returns a verdict; and when the sentence has no token (the empty
    sentence among them) the verdict has [error_count = 0] and
    [valid = false]. *)
Theorem validate_single_error_never_raises :
  (forall (lna : pystr -> nat -> list N) (sentence error_word explanation_ : pystr),
      exists v, validate_single_error lna sentence error_word explanation_ = Ok v)
  /\ (forall (lna : pystr -> nat -> list N) (error_word explanation_ : pystr),
      exists v, validate_single_error lna [] error_word explanation_ = Ok v /\
                error_count v = 0 /\ valid v = false /\ errors v = [])
  /\ (forall (lna : pystr -> nat -> list N) (sentence error_word explanation_ : pystr),
      PyStr.split sentence = [] ->
      exists v, validate_single_error lna sentence error_word explanation_ = Ok v /\
                error_count v = 0 /\ valid v = false /\ errors v = []).
Proof.
  assert (G : forall (lna : pystr -> nat -> list N) (sentence error_word explanation_ : pystr),
      PyStr.split sentence = [] ->
      exists v, validate_single_error lna sentence error_word explanation_ = Ok v /\
                error_count v = 0 /\ valid v = false /\ errors v = []).
  { intros lna s w e H. unfold validate_single_error. rewrite H.
    eexists; split; [reflexivity|]. repeat split. }
  split; [|split].
  - intros lna s w e.
    destruct (validate_single_error_run lna s w e) as (count & l & E & _).
    eexists; exact E.
  - intros lna w e. apply G. reflexivity.
  - exact G.
Qed.

(** The exact verdict of the scenario of C8. *)
Lemma scenario_ma_naed_verdict (lna : pystr -> nat -> list N) :
  validate_single_error lna (u"ma näed raamatut") (u"näed") (u"peab olema partitiiv")
  = Ok {| valid := false; error_count := 2;
          errors := [verb_agreement (u"näed") 1; case_error (u"näed") 1];
          message := u"Multiple errors detected: 2" |}.
Proof. vm_compute. reflexivity. Qed.

(** C8. On the sentence "ma näed raamatut" with error word "näed" and
    explanation "peab olema partitiiv", the verdict lists exactly one
    verb_agreement finding, which flags the word "näed" at position 1, and
    [error_count] is at least 1. *)
Theorem scenario_ma_naed_raamatut (lna : pystr -> nat -> list N) :
  exists v,
    validate_single_error lna (u"ma näed raamatut") (u"näed")
                          (u"peab olema partitiiv") = Ok v /\
    filter is_verb_agreement (errors v) = [verb_agreement (u"näed") 1] /\
    count_findings is_verb_agreement (errors v) = 1 /\
    1 <= error_count v.
Proof.
  eexists; split; [apply scenario_ma_naed_verdict|].
  cbn [errors error_count]. repeat split. lia.
Qed.

(* ================================================================== *)
(** ** Overlapping findings *)

(** A verb_agreement finding at position [i + 1] and a case_agreement
    finding on positions [j], [j + 1] of one verdict never have [i = j]:
    token [i] would be a key of the pronoun table, and no key passes the
    adjective-shape gate. *)
Lemma findings_pairs_differ
      (lna : pystr -> nat -> list N) (sentence error_word explanation_ : pystr)
      (v : Verdict) (i j : Z) (verb : pystr) (ws : list pystr) :
  validate_single_error lna sentence error_word explanation_ = Ok v ->
  In (verb_agreement verb (i + 1)) (errors v) ->
  In (case_agreement ws [j; j + 1]) (errors v) ->
  i <> j.
Proof.
  intros Hv Hverb Hcase Heq. subst j.
  destruct (validate_single_error_run lna sentence error_word explanation_)
    as (count & l & E & _ & Horigin).
  rewrite E in Hv. injection Hv as <-. cbn [errors snd] in *.
  rewrite Forall_forall in Horigin.
  destruct (Horigin _ Hverb) as (i1 & pronoun & _ & Hp & Hn1 & _ & Hknown & _).
  destruct (Horigin _ Hcase) as (i2 & w1 & w2 & _ & Hps & _ & Hn2 & _ & Hadj & _).
  assert (i1 = i) by lia. injection Hps as Hi2 _. subst i1 i2.
  rewrite Hn1 in Hn2. injection Hn2 as <-.
  rewrite (pronoun_not_adjective_shaped pronoun w2 Hknown) in Hadj.
  discriminate.
Qed.

(** C3, as stated, fails: there is no input on which the verdict holds,
    for one adjacent pair (i, i+1), both a verb_agreement finding flagging
    position i+1 and a case_agreement finding covering positions i and
    i+1. *)
Lemma no_input_flags_one_pair_twice :
  ~ (exists (lna : pystr -> nat -> list N) (sentence error_word explanation_ : pystr)
            (v : Verdict) (i : Z) (verb : pystr) (ws : list pystr),
        validate_single_error lna sentence error_word explanation_ = Ok v /\
        In (verb_agreement verb (i + 1)) (errors v) /\
        In (case_agreement ws [i; i + 1]) (errors v)).
Proof.
  intros (lna & s & w & e & v & i & verb & ws & Hv & H1 & H2).
  exact (findings_pairs_differ lna s w e v i i verb ws Hv H1 H2 eq_refl).
Qed.

(** C3, amended. Findings are not de-duplicated and may overlap on a
    token: on "ma punane raamat" the verdict flags position 1 with a
    verb_agreement finding (pair 0, 1) and covers positions 1 and 2 with a
    case_agreement finding.  The two kinds of finding never come from the
    same adjacent pair: a verb_agreement finding at position i+1 and a
    case_agreement finding on positions j, j+1 always have i <> j. *)
Theorem findings_overlap_on_a_token_only :
  (forall (lna : pystr -> nat -> list N),
      exists v,
        validate_single_error lna (u"ma punane raamat") (u"kass") (u"") = Ok v /\
        In (verb_agreement (u"punane") (0 + 1)) (errors v) /\
        In (case_agreement [u"punane"; u"raamat"] [1; 1 + 1]) (errors v))
  /\ (forall (lna : pystr -> nat -> list N) (sentence error_word explanation_ : pystr)
             (v : Verdict) (i j : Z) (verb : pystr) (ws : list pystr),
      validate_single_error lna sentence error_word explanation_ = Ok v ->
      In (verb_agreement verb (i + 1)) (errors v) ->
      In (case_agreement ws [j; j + 1]) (errors v) ->
      i <> j).
Proof.
  split.
  - intros lna. eexists; split; [apply run_weight_3|].
    cbn [errors]. split; [left; reflexivity | right; left; reflexivity].
  - exact findings_pairs_differ.
Qed.

(* ================================================================== *)
(** ** The case agreement checker *)

Lemma if_true_else (a b : bool) : (if a then true else b) = a || b.
Proof. destruct a; reflexivity. Qed.

Lemma check_case_agreement_unfold (adjective_ noun_ : pystr) :
  _check_case_agreement adjective_ noun_
  = (PyStr.endswith adjective_ (u"t") || PyStr.endswith adjective_ (u"at")
     || PyStr.endswith adjective_ (u"ut") || PyStr.endswith adjective_ (u"et"))
    && (PyStr.endswith noun_ (u"t") || PyStr.endswith noun_ (u"i")
        || PyStr.endswith noun_ (u"d") || PyStr.endswith noun_ (u"e")
        || PyStr.endswith noun_ (u"a") || PyStr.endswith noun_ (u"u"))
    || (PyStr.endswith adjective_ (u"ø") || PyStr.endswith adjective_ (u"a")
        || PyStr.endswith adjective_ (u"e"))
       && (PyStr.endswith noun_ (u"i") || PyStr.endswith noun_ (u"e")
           || PyStr.endswith noun_ (u"a") || PyStr.endswith noun_ (u"u")).
Proof.
  unfold _check_case_agreement, adjective_patterns.
  cbn [case_agreement_loop]. unfold case_row_match.
  cbn [adjective noun existsb]. rewrite !if_true_else, !orb_false_r.
  rewrite !orb_assoc. reflexivity.
Qed.

(** C9. The case agreement checker takes the "ø" of the genitive
    adjective pattern for a literal suffix.  [check(adjective, noun)] is
    true exactly when the adjective ends with one of "t", "at", "ut", "et"
    and the noun with one of "t", "i", "d", "e", "a", "u", or the
    adjective ends with the character "ø", with "a" or with "e" and the
    noun with one of "i", "e", "a", "u".  The genitive row matches an
    adjective only through one of its three literal endings: an adjective
    made of "ø" alone matches it, an adjective without such an ending
    (the empty one, or "suur") does not. *)
Theorem check_case_agreement_literal_rows :
  (forall adjective_ noun_ : pystr,
      _check_case_agreement adjective_ noun_ = true <->
      ((ends_with adjective_ (u"t") \/ ends_with adjective_ (u"at") \/
        ends_with adjective_ (u"ut") \/ ends_with adjective_ (u"et")) /\
       (ends_with noun_ (u"t") \/ ends_with noun_ (u"i") \/ ends_with noun_ (u"d") \/
        ends_with noun_ (u"e") \/ ends_with noun_ (u"a") \/ ends_with noun_ (u"u")))
      \/
      ((ends_with adjective_ (u"ø") \/ ends_with adjective_ (u"a") \/
        ends_with adjective_ (u"e")) /\
       (ends_with noun_ (u"i") \/ ends_with noun_ (u"e") \/
        ends_with noun_ (u"a") \/ ends_with noun_ (u"u"))))
  /\ (exists genitive,
        dict_get (u"genitive") adjective_patterns = Ok genitive /\
        (forall adjective_ noun_ : pystr,
            case_row_match genitive adjective_ noun_ = true <->
            (ends_with adjective_ (u"ø") \/ ends_with adjective_ (u"a") \/
             ends_with adjective_ (u"e")) /\
            (ends_with noun_ (u"i") \/ ends_with noun_ (u"e") \/
             ends_with noun_ (u"a") \/ ends_with noun_ (u"u"))) /\
        case_row_match genitive (u"ø") (u"maja") = true /\
        case_row_match genitive (u"suur") (u"maja") = false /\
        (forall noun_ : pystr, case_row_match genitive [] noun_ = false))
  /\ _check_case_agreement (u"ø") (u"maja") = true
  /\ _check_case_agreement (u"suur") (u"maja") = false.
Proof.
  split; [|split; [|split]].
  - intros a n. rewrite check_case_agreement_unfold.
    rewrite !orb_true_iff, !andb_true_iff, !orb_true_iff, !endswith_spec.
    tauto.
  - eexists; split; [reflexivity|]. split; [|split; [|split]].
    + intros a n. unfold case_row_match. cbn [adjective noun existsb].
      rewrite !orb_false_r.
      rewrite !andb_true_iff, !orb_true_iff, !endswith_spec. tauto.
    + reflexivity.
    + reflexivity.
    + intros n. reflexivity.
  - reflexivity.
  - reflexivity.
Qed.

(* ================================================================== *)
(** ** The quoted sentence of a question *)

Lemma span_unquoted_split (s run rest : pystr) :
  span_unquoted s = (run, rest) ->
  s = run ++ rest /\ ~ In apostrophe run /\
  (rest = [] \/ exists r, rest = apostrophe :: r).
Proof.
  revert run rest; induction s as [|c s IH]; intros run rest; simpl.
  - intros E; injection E as <- <-. auto.
  - destruct (N.eqb c apostrophe) eqn:C.
    + intros E; injection E as <- <-. apply N.eqb_eq in C; subst c.
      split; [reflexivity|]. split; [intros []|]. right; eauto.
    + destruct (span_unquoted s) as [run' rest'] eqn:S.
      intros E; injection E as <- <-.
      destruct (IH run' rest' eq_refl) as (-> & Hn & Hr).
      apply N.eqb_neq in C.
      split; [reflexivity|]. split; [|assumption].
      intros [F|F]; [congruence | exact (Hn F)].
Qed.

Lemma span_unquoted_run (m b : pystr) :
  ~ In apostrophe m ->
  span_unquoted (m ++ apostrophe :: b) = (m, apostrophe :: b).
Proof.
  induction m as [|c m IH]; intros Hn; cbn [span_unquoted app].
  - rewrite N.eqb_refl. reflexivity.
  - destruct (N.eqb c apostrophe) eqn:C.
    + apply N.eqb_eq in C. exfalso; apply Hn; left; assumption.
    + rewrite IH by (intros F; apply Hn; right; assumption). reflexivity.
Qed.

Lemma segment_of_cons (c : N) (m s : pystr) :
  segment_of m s -> segment_of m (c :: s).
Proof.
  intros (a & b & -> & Hm & Hn). exists (c :: a), b. auto.
Qed.

(** What the search returns is a quoted segment of the text. *)
Lemma re_search_quoted_sound (s m : pystr) :
  re_search_quoted s = Some m -> segment_of m s.
Proof.
  induction s as [|c s IH]; cbn [re_search_quoted]; intros H; [discriminate|].
  destruct (N.eqb c apostrophe) eqn:C; [| apply segment_of_cons, IH; assumption].
  destruct (span_unquoted s) as [run rest] eqn:S.
  destruct run as [|x run]; [apply segment_of_cons, IH; assumption|].
  destruct rest as [|y rest]; [apply segment_of_cons, IH; assumption|].
  injection H as <-. apply N.eqb_eq in C; subst c.
  destruct (span_unquoted_split _ _ _ S) as (-> & Hn & [F | (r & R)]);
    [discriminate|].
  injection R as -> ->.
  exists [], r. repeat split; [discriminate | assumption].
Qed.

(** The search finds a match exactly in the texts that hold a quoted
    segment. *)
Lemma re_search_quoted_some (s : pystr) :
  (exists m, re_search_quoted s = Some m) <-> quoted_segment s.
Proof.
  split.
  - intros (m & H). exists m. apply re_search_quoted_sound; assumption.
  - intros (m & a & b & -> & Hm & Hn).
    induction a as [|c a IH]; cbn [re_search_quoted app].
    + rewrite N.eqb_refl, (span_unquoted_run m b Hn).
      destruct m as [|x m]; [congruence | eauto].
    + destruct (N.eqb c apostrophe); [|assumption].
      destruct (span_unquoted _) as [[|x run] [|y rest]]; eauto.
Qed.

Lemma re_search_quoted_none (s : pystr) :
  re_search_quoted s = None <-> ~ quoted_segment s.
Proof.
  rewrite <- re_search_quoted_some.
  destruct (re_search_quoted s) as [m|]; split; try congruence.
  - intros F; exfalso; apply F; eauto.
  - intros _ (m' & F); discriminate.
Qed.

(* ================================================================== *)
(** ** The quiz runner *)

Lemma sum_ones_filter {A : Type} (p : A -> bool) (l : list A) :
  sum_ones p l = len (filter p l).
Proof.
  unfold sum_ones, len.
  assert (G : forall (xs : list A) (acc : Z),
             fold_left Z.add (List.map (fun _ => 1) xs) acc
             = acc + Z.of_nat (List.length xs)).
  { induction xs as [|x xs IH]; intros acc; simpl List.length; simpl fold_left.
    - lia.
    - rewrite IH. lia. }
  rewrite G. lia.
Qed.

Section QuizRunner.

Variable lower_nonascii : pystr -> nat -> list N.

Lemma quiz_loop_selects (qs : list Question) (acc : list Detail.t) :
  exists ds,
    for_each qs (quiz_loop_body lower_nonascii) acc = Ok (acc ++ ds) /\
    Selects qs ds.
Proof.
  revert acc; induction qs as [|q qs IH]; intros acc; simpl.
  - exists []. rewrite app_nil_r. split; [reflexivity | constructor].
  - unfold quiz_loop_body at 1.
    destruct (re_search_quoted (question q)) as [sentence|] eqn:R.
    + destruct (validate_single_error_run lower_nonascii sentence
                  (correctAnswer q) (explanation q)) as (count & l & E & _).
      rewrite E. cbn [bind].
      match goal with
      | |- context [acc ++ [?d]] => destruct (IH (acc ++ [d])) as (ds & F & HS);
                                     exists (d :: ds)
      end.
      rewrite F, <- app_assoc. split; [reflexivity|].
      apply Selects_keep; [|reflexivity|reflexivity|assumption].
      cbn [Detail.sentence]. apply re_search_quoted_sound; assumption.
    + cbn [bind]. destruct (IH acc) as (ds & F & HS).
      exists ds. split; [assumption|].
      apply Selects_skip; [|assumption].
      apply re_search_quoted_none; assumption.
Qed.

End QuizRunner.

Lemma Selects_count (qs : list Question) (ds : list Detail.t) :
  Selects qs ds -> CountQuoted qs (len ds).
Proof.
  induction 1 as [|q qs d ds Hseg _ _ _ IH|q qs ds Hno _ IH].
  - constructor.
  - replace (len (d :: ds)) with (len ds + 1) by (unfold len; simpl List.length; lia).
    constructor; [exists (Detail.sentence d); exact Hseg | exact IH].
  - constructor; assumption.
Qed.

Lemma Selects_quoted (qs : list Question) (ds : list Detail.t) :
  Selects qs ds -> Forall (fun d => quoted_segment (Detail.question d)) ds.
Proof.
  induction 1 as [|q qs d ds Hseg Hq _ _ IH|]; [constructor | | assumption].
  constructor; [|assumption]. rewrite Hq. exists (Detail.sentence d). exact Hseg.
Qed.

Lemma Selects_none (qs : list Question) (ds : list Detail.t) :
  Selects qs ds ->
  Forall (fun q => ~ quoted_segment (question q)) qs -> ds = [].
Proof.
  induction 1 as [|q qs d ds Hseg _ _ _ _|q qs ds _ _ IH]; intros HF;
    [reflexivity | | ].
  - inversion HF; subst. exfalso.
    match goal with H : ~ quoted_segment _ |- _ => apply H end.
    exists (Detail.sentence d). exact Hseg.
  - inversion HF; subst. auto.
Qed.

Lemma CountQuoted_functional (qs : list Question) (n m : Z) :
  CountQuoted qs n -> CountQuoted qs m -> n = m.
Proof.
  intros H; revert m; induction H; intros m' H'; inversion H'; subst;
    try contradiction; try reflexivity.
  - f_equal; auto.
  - auto.
Qed.

(** C7. For every quiz, a question record whose text holds no
    single-quoted segment contributes no entry to [details] and is not
    counted.  For the list [qs] under the quiz's ['questions'] key,
    [details] has, in order, one entry per record of [qs] with a quoted
    segment and none for the others, no entry carries the text of a record
    of [qs] without a quoted segment, and [total_questions], the length of
    [details], is the number of records of [qs] with a quoted segment.
    Without the key there is no record and both are empty and 0. *)
Theorem quiz_skips_unquoted_records
        (lna : pystr -> nat -> list N) (quiz_data : QuizData) :
  exists r,
    analyze_error_detection_quiz lna quiz_data = Ok r /\
    total_questions r = len (details r) /\
    (forall qs, questions quiz_data = Some qs ->
       Selects qs (details r) /\
       (forall q, In q qs ->
                  ~ quoted_segment (question q) ->
                  forall d, In d (details r) -> Detail.question d <> question q) /\
       CountQuoted qs (total_questions r)) /\
    (questions quiz_data = None -> details r = [] /\ total_questions r = 0).
Proof.
  unfold analyze_error_detection_quiz.
  destruct (quiz_loop_selects lna (get_questions quiz_data) []) as (ds & E & HS).
  rewrite E. cbn [bind app]. eexists; split; [reflexivity|].
  cbn [details total_questions]. split; [reflexivity|].
  unfold get_questions in HS. split.
  - intros qs Hq. rewrite Hq in HS. split; [exact HS|]. split.
    + intros q _ Hno d Hd Heq.
      pose proof (Selects_quoted _ _ HS) as HF. rewrite Forall_forall in HF.
      apply Hno. rewrite <- Heq. apply HF; assumption.
    + apply Selects_count; assumption.
  - intros Hq. rewrite Hq in HS. inversion HS. split; reflexivity.
Qed.

(** C10. When the question list of a quiz is missing, empty, or made only
    of records without a single-quoted segment, the summary has
    [total_questions = 0], [valid_questions = 0], [invalid_questions = 0],
    no [details], and [all_valid = true]. *)
Theorem quiz_without_quoted_records
        (lna : pystr -> nat -> list N) (quiz_data : QuizData) :
  (questions quiz_data = None \/
   questions quiz_data = Some [] \/
   exists qs, questions quiz_data = Some qs /\
              Forall (fun q => ~ quoted_segment (question q)) qs) ->
  analyze_error_detection_quiz lna quiz_data
  = Ok {| total_questions := 0;
          valid_questions := 0;
          invalid_questions := 0;
          details := [];
          all_valid := true |}.
Proof.
  intros H.
  assert (HF : Forall (fun q => ~ quoted_segment (question q))
                      (get_questions quiz_data)).
  { unfold get_questions.
    destruct H as [-> | [-> | (qs & -> & HF)]]; [constructor | constructor | exact HF]. }
  unfold analyze_error_detection_quiz.
  destruct (quiz_loop_selects lna (get_questions quiz_data) []) as (ds & E & HS).
  rewrite (Selects_none _ _ HS HF) in E. rewrite E. reflexivity.
Qed.

(* ================================================================== *)
(** ** The fix suggester *)

Lemma suggest_fix_absent (sentence error_word : pystr) :
  ~ In error_word (PyStr.split sentence) -> suggest_fix sentence error_word = Ok None.
Proof.
  intros H. unfold suggest_fix.
  destruct (list_in error_word (PyStr.split sentence)) eqn:E; [|reflexivity].
  apply list_in_spec in E. contradiction.
Qed.

(** With [pronoun] just before the first occurrence of [error_word], the
    suggester reaches the chain of verb forms for that pronoun. *)
Lemma suggest_fix_after_pronoun (sentence error_word pronoun : pystr) :
  first_preceded_by sentence error_word pronoun ->
  known_pronoun pronoun ->
  suggest_fix sentence error_word = Ok (generate_verb_form pronoun error_word).
Proof.
  intros (pre & post & Hs & Hn) Hk. unfold suggest_fix. rewrite Hs.
  replace (pre ++ pronoun :: error_word :: post)
    with ((pre ++ [pronoun]) ++ error_word :: post)
    by (rewrite <- app_assoc; reflexivity).
  set (words := (pre ++ [pronoun]) ++ error_word :: post).
  assert (Hin : list_in error_word words = true).
  { apply list_in_spec. unfold words. apply in_or_app. right; left; reflexivity. }
  rewrite Hin. cbn [negb].
  unfold list_index, words. rewrite (list_index_from_first 0 _ _ _ Hn).
  fold words. cbn [bind].
  assert (Hlen : 0 + len (pre ++ [pronoun]) = len pre + 1).
  { unfold len. rewrite length_app. simpl List.length. lia. }
  rewrite Hlen.
  destruct (Z.ltb_spec 0 (len pre + 1)) as [_|F]; [|pose proof (len_nonneg pre); lia].
  match goal with
  | |- context [@list_get ?T ?ws ?i] => assert (Hget : @list_get T ws i = Ok pronoun)
  end.
  { apply list_get_nth; [pose proof (len_nonneg pre); lia|].
    replace (Z.to_nat (len pre + 1 - 1)) with (List.length pre) by (unfold len; lia).
    unfold words. rewrite <- app_assoc. rewrite nth_error_app2 by lia.
    rewrite Nat.sub_diag. reflexivity. }
  rewrite Hget. cbn [bind].
  apply known_pronoun_mem in Hk. rewrite Hk.
  destruct (dict_get_mem _ _ Hk) as (expected & ->). reflexivity.
Qed.

Lemma rstrip_nil (chars : pystr) : PyStr.rstrip [] chars = [].
Proof. reflexivity. Qed.

Lemma rstrip_snoc (p : pystr) (c : N) (chars : pystr) :
  PyStr.rstrip (p ++ [c]) chars
  = if existsb (N.eqb c) chars then PyStr.rstrip p chars else p ++ [c].
Proof.
  unfold PyStr.rstrip. rewrite rev_app_distr. cbn [rev app PyStr.dropwhile].
  destruct (existsb (N.eqb c) chars); [reflexivity|].
  cbn [rev]. rewrite rev_involutive. reflexivity.
Qed.

(** What the branch for "ta" returns, by the last code points of the word:
    the whole trailing run of "n" goes, then the whole trailing run of
    "d"; a single "n" or "d" after another letter is the only case where
    exactly one code point goes. *)
Lemma generate_verb_form_ta (error_word : pystr) :
  generate_verb_form (u"ta") error_word
  = Some (PyStr.rstrip (PyStr.rstrip error_word (u"n")) (u"d")).
Proof. reflexivity. Qed.

Lemma ta_form_keeps_other_endings (p : pystr) (c : N) :
  c <> 110%N -> c <> 100%N ->
  PyStr.rstrip (PyStr.rstrip (p ++ [c]) (u"n")) (u"d") = p ++ [c].
Proof.
  intros Hn Hd. apply N.eqb_neq in Hn, Hd.
  change (u"n") with [110%N]. change (u"d") with [100%N].
  rewrite rstrip_snoc; cbn [existsb]; rewrite Hn; cbn [orb].
  rewrite rstrip_snoc; cbn [existsb]; rewrite Hd; reflexivity.
Qed.

Lemma ta_form_single_n (p : pystr) (c : N) :
  c <> 110%N -> c <> 100%N ->
  PyStr.rstrip (PyStr.rstrip (p ++ [c] ++ u"n") (u"n")) (u"d") = p ++ [c].
Proof.
  intros Hn Hd. rewrite app_assoc.
  change (u"n") with [110%N].
  rewrite rstrip_snoc. change (existsb (N.eqb 110) [110%N]) with true. cbv iota.
  apply ta_form_keeps_other_endings; assumption.
Qed.

Lemma ta_form_single_d (p : pystr) (c : N) :
  c <> 110%N -> c <> 100%N ->
  PyStr.rstrip (PyStr.rstrip (p ++ [c] ++ u"d") (u"n")) (u"d") = p ++ [c].
Proof.
  intros Hn Hd. rewrite app_assoc. apply N.eqb_neq in Hd.
  change (u"n") with [110%N]. change (u"d") with [100%N].
  rewrite rstrip_snoc. change (existsb (N.eqb 100) [110%N]) with false. cbv iota.
  rewrite rstrip_snoc. change (existsb (N.eqb 100) [100%N]) with true. cbv iota.
  rewrite rstrip_snoc; cbn [existsb]; rewrite Hd; reflexivity.
Qed.

Lemma known_pronoun_ma : known_pronoun (u"ma").
Proof. unfold known_pronoun; simpl; tauto. Qed.
Lemma known_pronoun_ta : known_pronoun (u"ta").
Proof. unfold known_pronoun; simpl; tauto. Qed.
Lemma known_pronoun_me : known_pronoun (u"me").
Proof. unfold known_pronoun; simpl; tauto. Qed.
Lemma known_pronoun_te : known_pronoun (u"te").
Proof. unfold known_pronoun; simpl; tauto. Qed.
Lemma known_pronoun_nad : known_pronoun (u"nad").
Proof. unfold known_pronoun; simpl; tauto. Qed.

(** With "ta" before the first occurrence of the word, the suggestion is
    the word without its trailing run of "n" and then without the
    trailing run of "d" of what is left. *)
Lemma suggest_fix_after_ta (sentence error_word : pystr) :
  first_preceded_by sentence error_word (u"ta") ->
  suggest_fix sentence error_word
  = Ok (Some (PyStr.rstrip (PyStr.rstrip error_word (u"n")) (u"d"))).
Proof.
  intros H. rewrite (suggest_fix_after_pronoun _ _ _ H known_pronoun_ta).
  reflexivity.
Qed.

(** C6. When the token just before the first occurrence of [error_word]
    is "ma", [suggest_fix] returns [error_word + "n"] (whether or not the
    word already ends in "n"); with "me" it returns [error_word + "me"],
    with "te" [error_word + "te"], with "nad" [error_word + "vad"].  When
    [error_word] is not a token of the sentence it returns [None]. *)
Theorem suggest_fix_appends_pronoun_suffix (sentence error_word : pystr) :
  (first_preceded_by sentence error_word (u"ma") ->
   suggest_fix sentence error_word = Ok (Some (error_word ++ u"n")))
  /\ (first_preceded_by sentence error_word (u"me") ->
      suggest_fix sentence error_word = Ok (Some (error_word ++ u"me")))
  /\ (first_preceded_by sentence error_word (u"te") ->
      suggest_fix sentence error_word = Ok (Some (error_word ++ u"te")))
  /\ (first_preceded_by sentence error_word (u"nad") ->
      suggest_fix sentence error_word = Ok (Some (error_word ++ u"vad")))
  /\ (~ In error_word (PyStr.split sentence) ->
      suggest_fix sentence error_word = Ok None).
Proof.
  repeat split; intros H.
  - rewrite (suggest_fix_after_pronoun _ _ _ H known_pronoun_ma); reflexivity.
  - rewrite (suggest_fix_after_pronoun _ _ _ H known_pronoun_me); reflexivity.
  - rewrite (suggest_fix_after_pronoun _ _ _ H known_pronoun_te); reflexivity.
  - rewrite (suggest_fix_after_pronoun _ _ _ H known_pronoun_nad); reflexivity.
  - apply suggest_fix_absent; assumption.
Qed.

(** C4. The claim holds of the words that end in a single "n" or "d", or
    in neither; the code departs from it on a doubled ending.  For the
    sentence "ta linn" and the word "linn" the claim gives "lin" (one
    trailing "n" removed) and [suggest_fix] returns "li": [rstrip] removes
    every trailing code point of its argument, not one suffix.  It also
    removes both endings of "tuledn". *)
Theorem suggest_fix_ta_strips_whole_runs :
  first_preceded_by (u"ta linn") (u"linn") (u"ta") /\
  suggest_fix (u"ta linn") (u"linn") = Ok (Some (u"li")) /\
  strip_one_suffix (u"linn") = u"lin" /\
  first_preceded_by (u"ta tuledn") (u"tuledn") (u"ta") /\
  suggest_fix (u"ta tuledn") (u"tuledn") = Ok (Some (u"tule")) /\
  strip_one_suffix (u"tuledn") = u"tuled".
Proof.
  repeat split.
  - exists [], []. split; [reflexivity|]. vm_compute. intros [H|[]]; discriminate H.
  - exists [], []. split; [reflexivity|]. vm_compute. intros [H|[]]; discriminate H.
Qed.

(** On a word that ends in one "n" or one "d" after another letter, or in
    neither, the branch for "ta" does what [strip_one_suffix] says. *)
Lemma ta_form_agrees_without_runs (p : pystr) (c : N) :
  c <> 110%N -> c <> 100%N ->
  PyStr.rstrip (PyStr.rstrip (p ++ [c]) (u"n")) (u"d") = strip_one_suffix (p ++ [c]) /\
  PyStr.rstrip (PyStr.rstrip (p ++ [c] ++ u"n") (u"n")) (u"d")
  = strip_one_suffix (p ++ [c] ++ u"n") /\
  PyStr.rstrip (PyStr.rstrip (p ++ [c] ++ u"d") (u"n")) (u"d")
  = strip_one_suffix (p ++ [c] ++ u"d").
Proof.
  intros Hn Hd.
  rewrite ta_form_keeps_other_endings, ta_form_single_n, ta_form_single_d
    by assumption.
  unfold strip_one_suffix. repeat split.
  - assert (E1 : PyStr.endswith (p ++ [c]) (u"n") = false).
    { destruct (PyStr.endswith (p ++ [c]) (u"n")) eqn:E; [|reflexivity].
      apply endswith_spec in E. destruct E as (q & E).
      change (u"n") with [110%N] in E.
      apply app_inj_tail in E. destruct E as [_ E]. congruence. }
    assert (E2 : PyStr.endswith (p ++ [c]) (u"d") = false).
    { destruct (PyStr.endswith (p ++ [c]) (u"d")) eqn:E; [|reflexivity].
      apply endswith_spec in E. destruct E as (q & E).
      change (u"d") with [100%N] in E.
      apply app_inj_tail in E. destruct E as [_ E]. congruence. }
    rewrite E1, E2. reflexivity.
  - assert (E : PyStr.endswith (p ++ [c] ++ u"n") (u"n") = true).
    { apply endswith_spec. exists (p ++ [c]). rewrite <- app_assoc; reflexivity. }
    rewrite E. cbn [orb]. rewrite app_assoc. symmetry. apply removelast_last.
  - assert (E : PyStr.endswith (p ++ [c] ++ u"d") (u"d") = true).
    { apply endswith_spec. exists (p ++ [c]). rewrite <- app_assoc; reflexivity. }
    rewrite E, orb_true_r. rewrite app_assoc. symmetry. apply removelast_last.
Qed.

(* ================================================================== *)
(** ** The theorems at concrete inputs *)

Lemma valid_iff_error_count_one_witness :
  exists v,
    validate_single_error lower_keep (u"ma punane raamat") (u"kass") (u"") = Ok v /\
    error_count v = 3 /\ valid v = false.
Proof.
  destruct (valid_iff_error_count_one lower_keep (u"ma punane raamat") (u"kass") (u""))
    as (v & Hv & _ & H3).
  exists v.
  assert (E : error_count v = 3).
  { rewrite run_weight_3 in Hv. injection Hv as <-. reflexivity. }
  split; [exact Hv|]. split; [exact E|]. apply H3. right; right; exact E.
Defined.

Lemma validate_single_error_never_raises_witness :
  PyStr.split (u"  ") = [] /\
  exists v,
    validate_single_error lower_keep (u"  ") (u"kass") (u"partitiiv") = Ok v /\
    error_count v = 0 /\ valid v = false /\ errors v = [].
Proof.
  split; [reflexivity|].
  apply (proj2 (proj2 validate_single_error_never_raises)). reflexivity.
Defined.

Lemma findings_overlap_on_a_token_only_witness :
  let v := {| valid := false; error_count := 3;
              errors := [verb_agreement (u"punane") 1;
                         case_agreement [u"punane"; u"raamat"] [1; 2]];
              message := u"Multiple errors detected: 3" |} in
  validate_single_error lower_keep (u"ma punane raamat") (u"kass") (u"") = Ok v /\
  In (verb_agreement (u"punane") (0 + 1)) (errors v) /\
  In (case_agreement [u"punane"; u"raamat"] [1; 1 + 1]) (errors v) /\
  0 <> 1.
Proof.
  intros v.
  assert (H1 : validate_single_error lower_keep (u"ma punane raamat") (u"kass") (u"")
               = Ok v) by reflexivity.
  assert (H2 : In (verb_agreement (u"punane") (0 + 1)) (errors v))
    by (left; reflexivity).
  assert (H3 : In (case_agreement [u"punane"; u"raamat"] [1; 1 + 1]) (errors v))
    by (right; left; reflexivity).
  repeat split; try assumption.
  exact (proj2 findings_overlap_on_a_token_only lower_keep _ _ _ v 0 1 _ _ H1 H2 H3).
Defined.

Lemma quiz_skips_unquoted_records_witness :
  let plain := {| question := u"Leia lausest viga";
                  correctAnswer := u"kass";
                  explanation := u"" |} in
  let quoted := {| question := u"Leia viga: 'ma näed'";
                   correctAnswer := u"näed";
                   explanation := u"" |} in
  let quiz_data := {| questions := Some [plain; quoted; plain] |} in
  questions quiz_data = Some [plain; quoted; plain] /\
  exists r,
    analyze_error_detection_quiz lower_keep quiz_data = Ok r /\
    Selects [plain; quoted; plain] (details r) /\
    CountQuoted [plain; quoted; plain] (total_questions r) /\
    total_questions r = 1 /\
    List.map Detail.sentence (details r) = [u"ma näed"].
Proof.
  intros plain quoted quiz_data.
  assert (H : questions quiz_data = Some [plain; quoted; plain]) by reflexivity.
  split; [exact H|].
  destruct (quiz_skips_unquoted_records lower_keep quiz_data)
    as (r & E & _ & Hsome & _).
  destruct (Hsome _ H) as (HS & _ & HC).
  exists r. split; [exact E|]. split; [exact HS|]. split; [exact HC|].
  assert (E' : exists r', analyze_error_detection_quiz lower_keep quiz_data = Ok r' /\
                          total_questions r' = 1 /\
                          List.map Detail.sentence (details r') = [u"ma näed"]).
  { eexists. split; [vm_compute; reflexivity|]. split; reflexivity. }
  destruct E' as (r' & E' & Ht & Hd). rewrite E in E'. injection E' as <-.
  split; assumption.
Defined.

Lemma quiz_without_quoted_records_witness :
  let record := {| question := u"Leia lausest viga";
                   correctAnswer := u"kass";
                   explanation := u"peab olema partitiiv" |} in
  ~ quoted_segment (question record) /\
  analyze_error_detection_quiz lower_keep {| questions := Some [record] |}
  = Ok {| total_questions := 0; valid_questions := 0; invalid_questions := 0;
          details := []; all_valid := true |}.
Proof.
  intros record.
  assert (H : ~ quoted_segment (question record))
    by (apply re_search_quoted_none; reflexivity).
  split; [exact H|].
  apply quiz_without_quoted_records. right; right.
  exists [record]. split; [reflexivity|]. constructor; [exact H | constructor].
Defined.

Lemma suggest_fix_appends_pronoun_suffix_witness :
  (first_preceded_by (u"ma tule") (u"tule") (u"ma") /\
   suggest_fix (u"ma tule") (u"tule") = Ok (Some (u"tulen")))
  /\ (first_preceded_by (u"homme me tule") (u"tule") (u"me") /\
      suggest_fix (u"homme me tule") (u"tule") = Ok (Some (u"tuleme")))
  /\ (first_preceded_by (u"te tule") (u"tule") (u"te") /\
      suggest_fix (u"te tule") (u"tule") = Ok (Some (u"tulete")))
  /\ (first_preceded_by (u"nad tule koju") (u"tule") (u"nad") /\
      suggest_fix (u"nad tule koju") (u"tule") = Ok (Some (u"tulevad")))
  /\ (~ In (u"tule") (PyStr.split (u"ma olen kodus")) /\
      suggest_fix (u"ma olen kodus") (u"tule") = Ok None).
Proof.
  assert (H1 : first_preceded_by (u"ma tule") (u"tule") (u"ma")).
  { exists [], []. split; [reflexivity|]. vm_compute. intros [H|[]]; discriminate H. }
  assert (H2 : first_preceded_by (u"homme me tule") (u"tule") (u"me")).
  { exists [u"homme"], []. split; [reflexivity|]. vm_compute.
    intros [H|[H|[]]]; discriminate H. }
  assert (H3 : first_preceded_by (u"te tule") (u"tule") (u"te")).
  { exists [], []. split; [reflexivity|]. vm_compute. intros [H|[]]; discriminate H. }
  assert (H4 : first_preceded_by (u"nad tule koju") (u"tule") (u"nad")).
  { exists [], [u"koju"]. split; [reflexivity|]. vm_compute.
    intros [H|[]]; discriminate H. }
  assert (H5 : ~ In (u"tule") (PyStr.split (u"ma olen kodus"))).
  { vm_compute. intros [H|[H|[H|[]]]]; discriminate H. }
  split; [|split; [|split; [|split]]]; (split; [assumption|]).
  - exact (proj1 (suggest_fix_appends_pronoun_suffix _ _) H1).
  - exact (proj1 (proj2 (suggest_fix_appends_pronoun_suffix _ _)) H2).
  - exact (proj1 (proj2 (proj2 (suggest_fix_appends_pronoun_suffix _ _))) H3).
  - exact (proj1 (proj2 (proj2 (proj2 (suggest_fix_appends_pronoun_suffix _ _)))) H4).
  - exact (proj2 (proj2 (proj2 (proj2 (suggest_fix_appends_pronoun_suffix _ _)))) H5).
Defined.

(* ================================================================== *)
(** ** The aggregator, finding by finding *)

Lemma enumerate_from_In_iff {A : Type} (l : list A) (k i : Z) (x : A) :
  In (i, x) (enumerate_from k l) <->
  k <= i /\ nth_error l (Z.to_nat (i - k)) = Some x.
Proof.
  split.
  - intros H. apply enumerate_from_In in H. destruct H as [[H _] E]. auto.
  - revert k; induction l as [|y l IH]; intros k [Hk E]; simpl.
    + destruct (Z.to_nat (i - k)); discriminate.
    + destruct (Z.eq_dec i k) as [->|Hne].
      * rewrite Z.sub_diag in E. simpl in E. injection E as ->. left; reflexivity.
      * right. apply IH. split; [lia|].
        replace (Z.to_nat (i - k)) with (S (Z.to_nat (i - (k + 1)))) in E by lia.
        exact E.
Qed.

Lemma enumerate_In_iff {A : Type} (l : list A) (i : Z) (x : A) :
  In (i, x) (enumerate l) <-> 0 <= i /\ nth_error l (Z.to_nat i) = Some x.
Proof.
  unfold enumerate. rewrite enumerate_from_In_iff, Z.sub_0_r. reflexivity.
Qed.

Lemma range_In_iff (n i : Z) : In i (range n) <-> 0 <= i < n.
Proof.
  split; [apply range_In|]. intros H. unfold range. apply in_map_iff.
  exists (Z.to_nat i). split; [lia|]. apply in_seq. lia.
Qed.

Lemma nth_error_beyond {A : Type} (l : list A) (i : Z) :
  len l <= i -> nth_error l (Z.to_nat i) = None.
Proof. intros H. apply nth_error_None. unfold len in H. lia. Qed.

(** A loop whose every turn appends [g x] to the second component ends
    with [flat_map g xs] appended. *)
Lemma for_each_appends {A : Type} (g : A -> list ErrorDetail)
      (body : counters -> A -> result counters) (xs : list A) :
  (forall st x, In x xs -> exists c, body st x = Ok (c, snd st ++ g x)) ->
  forall st, exists c, for_each xs body st = Ok (c, snd st ++ flat_map g xs).
Proof.
  intros Hbody. induction xs as [|x xs IH]; intros st; cbn [for_each flat_map].
  - exists (fst st). rewrite app_nil_r. destruct st; reflexivity.
  - destruct (Hbody st x) as (c & E); [left; reflexivity|].
    rewrite E. cbn [bind].
    destruct IH with (st := (c, snd st ++ g x)) as (c' & E').
    { intros st' y Hy. apply Hbody. right; assumption. }
    exists c'. rewrite E'. cbn [snd]. rewrite app_assoc. reflexivity.
Qed.

Lemma verb_loop_body_appends (words : list pystr) (st : counters) (iw : Z * pystr) :
  In iw (enumerate words) ->
  exists c, verb_loop_body words st iw = Ok (c, snd st ++ verb_findings_at words iw).
Proof.
  destruct st as [count l], iw as [i word]. intros H.
  apply enumerate_In in H. destruct H as [Hi Hw].
  unfold verb_loop_body, verb_findings_at. cbn [snd].
  destruct (dict_mem word pronoun_verb_agreement);
    [| exists count; rewrite app_nil_r; reflexivity].
  destruct (Z.ltb_spec (i + 1) (len words)) as [Hlt|Hge].
  - destruct (list_get_in_range words (i + 1)) as (verb & Hn & ->); [lia|].
    rewrite Hn. cbn [bind].
    destruct (check_verb_agreement_total word verb) as ([|] & ->); cbn [bind negb].
    + exists count; rewrite app_nil_r; reflexivity.
    + eexists; reflexivity.
  - rewrite (nth_error_beyond words (i + 1) Hge).
    exists count; rewrite app_nil_r; reflexivity.
Qed.

Lemma case_loop_body_appends (words : list pystr) (st : counters) (i : Z) :
  In i (range (len words - 1)) ->
  exists c, case_loop_body words st i = Ok (c, snd st ++ case_findings_at words i).
Proof.
  destruct st as [count l]. intros H. apply range_In in H.
  unfold case_loop_body, case_findings_at. cbn [snd].
  destruct (list_get_in_range words i) as (w1 & Hn1 & ->); [lia|].
  destruct (list_get_in_range words (i + 1)) as (w2 & Hn2 & ->); [lia|].
  rewrite Hn1, Hn2. cbn [bind].
  destruct (_is_adjective_noun_pair w1 w2); cbn [andb];
    [| exists count; rewrite app_nil_r; reflexivity].
  destruct (_check_case_agreement w1 w2); cbn [negb].
  - exists count; rewrite app_nil_r; reflexivity.
  - eexists; reflexivity.
Qed.

Lemma case_error_step_appends (lna : pystr -> nat -> list N)
      (words : list pystr) (error_word explanation_ : pystr) (st : counters) :
  exists c,
    case_error_step lna words error_word explanation_ st
    = Ok (c, snd st ++ case_error_finding
                         (fun w => _is_case_error lna w explanation_)
                         words error_word).
Proof.
  destruct st as [count l]. unfold case_error_step, case_error_finding. cbn [snd].
  destruct (list_in error_word words) eqn:Hin; cbn [andb];
    [| exists count; rewrite app_nil_r; reflexivity].
  destruct (list_index_total _ _ Hin) as (idx & ->). cbn [bind].
  destruct (_is_case_error lna error_word explanation_).
  - eexists; reflexivity.
  - exists count; rewrite app_nil_r; reflexivity.
Qed.

(** The verdict of a run: its findings are [findings_of], its counter is
    their weighted sum. *)
Lemma validate_single_error_findings
      (lna : pystr -> nat -> list N) (sentence error_word explanation_ : pystr) :
  exists v,
    validate_single_error lna sentence error_word explanation_ = Ok v /\
    errors v = findings_of (fun w => _is_case_error lna w explanation_)
                           (PyStr.split sentence) error_word /\
    error_count v = total_weight (errors v) /\
    valid v = (error_count v =? 1).
Proof.
  destruct (validate_single_error_run lna sentence error_word explanation_)
    as (count & l & E & Hw & _).
  eexists; split; [exact E|]. cbn [errors error_count valid fst snd] in *.
  split; [|split; [exact Hw | reflexivity]].
  revert E. unfold validate_single_error.
  set (words := PyStr.split sentence).
  match goal with
  | |- context [@for_each ?A _ ?xs (verb_loop_body words) ?st] =>
      destruct (@for_each_appends A (verb_findings_at words)
                  (verb_loop_body words) xs
                  (fun st' x => verb_loop_body_appends words st' x) st)
        as (c1 & ->)
  end.
  cbn [bind snd app].
  match goal with
  | |- context [@for_each ?A _ ?xs (case_loop_body words) ?st] =>
      destruct (@for_each_appends A (case_findings_at words)
                  (case_loop_body words) xs
                  (fun st' x => case_loop_body_appends words st' x) st)
        as (c2 & ->)
  end.
  cbn [bind snd].
  match goal with
  | |- context [case_error_step lna words error_word explanation_ ?st] =>
      destruct (case_error_step_appends lna words error_word explanation_ st)
        as (c3 & ->)
  end.
  cbn [bind snd]. intros E. injection E as _ _ <-.
  unfold findings_of. rewrite app_assoc. reflexivity.
Qed.

Lemma list_index_from_spec (x : pystr) (l : list pystr) (k i : Z) :
  list_index_from k x l = Ok i <->
  exists pre, first_occurrence x l pre /\ i = k + len pre.
Proof.
  split.
  - revert k; induction l as [|y l IH]; intros k; cbn [list_index_from];
      [discriminate|].
    destruct (PyStr.eqb y x) eqn:E.
    + intros H; injection H as <-. apply eqb_eq in E; subst y.
      exists []. split; [exists l; split; [reflexivity | intros []]|].
      unfold len; simpl; lia.
    + intros H. apply IH in H. destruct H as (pre & (post & -> & Hn) & ->).
      apply eqb_neq in E. exists (y :: pre). split.
      * exists post. split; [reflexivity|]. intros [F|F]; [congruence | exact (Hn F)].
      * unfold len; simpl List.length; lia.
  - intros (pre & (post & -> & Hn) & ->). apply list_index_from_first; assumption.
Qed.

Lemma list_index_spec (x : pystr) (l : list pystr) (i : Z) :
  list_index x l = Ok i <-> exists pre, first_occurrence x l pre /\ i = len pre.
Proof. unfold list_index. rewrite list_index_from_spec. reflexivity. Qed.

Lemma first_occurrence_in (x : pystr) (l pre : list pystr) :
  first_occurrence x l pre -> In x l.
Proof. intros (post & -> & _). apply in_or_app; right; left; reflexivity. Qed.

Lemma verb_findings_at_In (words : list pystr) (i : Z) (word : pystr)
      (f : ErrorDetail) :
  In f (verb_findings_at words (i, word)) <->
  exists verb,
    known_pronoun word /\
    nth_error words (Z.to_nat (i + 1)) = Some verb /\
    _check_verb_agreement word verb = Ok false /\
    f = verb_agreement verb (i + 1).
Proof.
  unfold verb_findings_at.
  destruct (dict_mem word pronoun_verb_agreement) eqn:M.
  - apply known_pronoun_mem in M.
    destruct (nth_error words (Z.to_nat (i + 1))) as [verb|].
    + destruct (_check_verb_agreement word verb) as [[|]|] eqn:C; simpl; split.
      * intros [].
      * intros (v' & _ & E & C' & _). injection E as <-. congruence.
      * intros [<-|[]]. exists verb; auto.
      * intros (v' & _ & E & _ & ->). injection E as <-. left; reflexivity.
      * intros [].
      * intros (v' & _ & E & C' & _). injection E as <-. congruence.
    + simpl; split; [intros [] | intros (v' & _ & E & _); discriminate].
  - simpl; split; [intros [] | intros (v' & F & _)].
    apply known_pronoun_mem in F. congruence.
Qed.

Lemma case_findings_at_In (words : list pystr) (i : Z) (f : ErrorDetail) :
  In f (case_findings_at words i) <->
  exists w1 w2,
    nth_error words (Z.to_nat i) = Some w1 /\
    nth_error words (Z.to_nat (i + 1)) = Some w2 /\
    _is_adjective_noun_pair w1 w2 = true /\
    _check_case_agreement w1 w2 = false /\
    f = case_agreement [w1; w2] [i; i + 1].
Proof.
  unfold case_findings_at.
  destruct (nth_error words (Z.to_nat i)) as [w1|];
    [| simpl; split; [intros [] | intros (a & b & F & _); discriminate]].
  destruct (nth_error words (Z.to_nat (i + 1))) as [w2|];
    [| simpl; split; [intros [] | intros (a & b & _ & F & _); discriminate]].
  assert (Hno : (exists a b : pystr,
                   Some w1 = Some a /\ Some w2 = Some b /\
                   _is_adjective_noun_pair a b = true /\
                   _check_case_agreement a b = false /\
                   f = case_agreement [a; b] [i; i + 1]) ->
                _is_adjective_noun_pair w1 w2 = true /\
                _check_case_agreement w1 w2 = false /\
                f = case_agreement [w1; w2] [i; i + 1]).
  { intros (a & b & E1 & E2 & G' & C' & F).
    injection E1 as <-; injection E2 as <-. auto. }
  destruct (_is_adjective_noun_pair w1 w2) eqn:G;
    destruct (_check_case_agreement w1 w2) eqn:C; simpl; split.
  - intros [].
  - intros H. apply Hno in H. destruct H as (_ & F & _); discriminate.
  - intros [<-|[]]. exists w1, w2; auto.
  - intros H. apply Hno in H. destruct H as (_ & _ & ->). left; reflexivity.
  - intros [].
  - intros H. apply Hno in H. destruct H as (F & _); discriminate.
  - intros [].
  - intros H. apply Hno in H. destruct H as (F & _); discriminate.
Qed.

Lemma case_error_finding_In (ice : pystr -> bool) (words : list pystr)
      (error_word : pystr) (f : ErrorDetail) :
  In f (case_error_finding ice words error_word) <->
  exists pre,
    first_occurrence error_word words pre /\ ice error_word = true /\
    f = case_error error_word (len pre).
Proof.
  unfold case_error_finding. split.
  - destruct (list_in error_word words) eqn:Hin; [|intros []].
    destruct (ice error_word); cbn [andb]; [|intros []].
    destruct (list_index error_word words) as [idx|] eqn:E; [|intros []].
    intros [<-|[]]. apply list_index_spec in E. destruct E as (pre & H & ->).
    exists pre; auto.
  - intros (pre & H & -> & ->).
    rewrite (proj2 (list_in_spec _ _) (first_occurrence_in _ _ _ H)). cbn [andb].
    rewrite (proj2 (list_index_spec _ _ _) (ex_intro _ pre (conj H eq_refl))).
    left; reflexivity.
Qed.

Lemma verb_findings_kind (words : list pystr) (xs : list (Z * pystr)) :
  Forall (fun f => is_verb_agreement f = true)
         (flat_map (verb_findings_at words) xs).
Proof.
  apply Forall_forall. intros f H. apply in_flat_map in H.
  destruct H as ([i word] & _ & H). apply verb_findings_at_In in H.
  destruct H as (verb & _ & _ & _ & ->). reflexivity.
Qed.

Lemma case_findings_kind (words : list pystr) (xs : list Z) :
  Forall (fun f => is_case_agreement f = true)
         (flat_map (case_findings_at words) xs).
Proof.
  apply Forall_forall. intros f H. apply in_flat_map in H.
  destruct H as (i & _ & H). apply case_findings_at_In in H.
  destruct H as (w1 & w2 & _ & _ & _ & _ & ->). reflexivity.
Qed.

Lemma case_error_finding_kind (ice : pystr -> bool) (words : list pystr)
      (error_word : pystr) :
  Forall (fun f => is_case_error f = true) (case_error_finding ice words error_word)
  /\ (List.length (case_error_finding ice words error_word) <= 1)%nat.
Proof.
  unfold case_error_finding.
  destruct (list_in error_word words && ice error_word);
    [| split; [constructor | simpl; lia]].
  destruct (list_index error_word words);
    split; repeat constructor.
Qed.

Lemma findings_of_In (ice : pystr -> bool) (words : list pystr)
      (error_word : pystr) (f : ErrorDetail) :
  In f (findings_of ice words error_word) <->
  (exists i word, In (i, word) (enumerate words) /\
                  In f (verb_findings_at words (i, word)))
  \/ (exists i, In i (range (len words - 1)) /\ In f (case_findings_at words i))
  \/ In f (case_error_finding ice words error_word).
Proof.
  unfold findings_of. rewrite !in_app_iff, !in_flat_map. split.
  - intros [([i word] & H) | [H | H]]; eauto.
  - intros [(i & word & H) | [H | H]]; eauto.
Qed.

(** X1. The verdict lists a verb_agreement finding for [verb] at [pos]
    exactly when [pos = i + 1] for a token [i] that is a known pronoun,
    is followed by the token [verb], and fails the agreement check with
    it: no such pair is missed, and nothing else is reported. *)
Theorem verb_agreement_finding_iff
        (lna : pystr -> nat -> list N) (sentence error_word explanation_ : pystr) :
  exists v,
    validate_single_error lna sentence error_word explanation_ = Ok v /\
    forall (verb : pystr) (pos : Z),
      In (verb_agreement verb pos) (errors v) <->
      exists i pronoun,
        0 <= i /\ pos = i + 1 /\
        nth_error (PyStr.split sentence) (Z.to_nat i) = Some pronoun /\
        nth_error (PyStr.split sentence) (Z.to_nat (i + 1)) = Some verb /\
        known_pronoun pronoun /\
        _check_verb_agreement pronoun verb = Ok false.
Proof.
  destruct (validate_single_error_findings lna sentence error_word explanation_)
    as (v & E & Hl & _).
  exists v; split; [exact E|]. intros verb pos.
  rewrite Hl, findings_of_In. split.
  - intros [(i & word & Hin & H) | [(i & _ & H) | H]].
    + apply enumerate_In_iff in Hin. destruct Hin as [Hi Hn].
      apply verb_findings_at_In in H. destruct H as (verb' & Hk & Hv & C & F).
      injection F as -> ->. exists i, word. auto 10.
    + apply case_findings_at_In in H.
      destruct H as (w1 & w2 & _ & _ & _ & _ & F). discriminate.
    + apply case_error_finding_In in H. destruct H as (pre & _ & _ & F). discriminate.
  - intros (i & pronoun & Hi & -> & Hn & Hv & Hk & C). left.
    exists i, pronoun. split; [apply enumerate_In_iff; auto|].
    apply verb_findings_at_In. exists verb; auto.
Qed.

(** X2. The verdict lists a case_agreement finding exactly for the
    adjacent pairs (i, i+1) whose first token passes the adjective-shape
    gate and which fail the case agreement check; the finding carries the
    two tokens and the two positions. *)
Theorem case_agreement_finding_iff
        (lna : pystr -> nat -> list N) (sentence error_word explanation_ : pystr) :
  exists v,
    validate_single_error lna sentence error_word explanation_ = Ok v /\
    forall (ws : list pystr) (ps : list Z),
      In (case_agreement ws ps) (errors v) <->
      exists i w1 w2,
        0 <= i /\ ps = [i; i + 1] /\ ws = [w1; w2] /\
        nth_error (PyStr.split sentence) (Z.to_nat i) = Some w1 /\
        nth_error (PyStr.split sentence) (Z.to_nat (i + 1)) = Some w2 /\
        _is_adjective_noun_pair w1 w2 = true /\
        _check_case_agreement w1 w2 = false.
Proof.
  destruct (validate_single_error_findings lna sentence error_word explanation_)
    as (v & E & Hl & _).
  exists v; split; [exact E|]. intros ws ps.
  rewrite Hl, findings_of_In. split.
  - intros [(i & word & _ & H) | [(i & Hin & H) | H]].
    + apply verb_findings_at_In in H. destruct H as (verb' & _ & _ & _ & F).
      discriminate.
    + apply range_In in Hin. apply case_findings_at_In in H.
      destruct H as (w1 & w2 & H1 & H2 & G & C & F).
      injection F as -> ->. exists i, w1, w2.
      split; [lia|]. repeat (split; [first [reflexivity | assumption]|]). assumption.
    + apply case_error_finding_In in H. destruct H as (pre & _ & _ & F). discriminate.
  - intros (i & w1 & w2 & Hi & -> & -> & H1 & H2 & G & C). right; left.
    exists i. split.
    + apply range_In_iff. split; [assumption|].
      unfold len.
      match goal with
      | |- _ < Z.of_nat ?n - 1 =>
          assert (Z.to_nat (i + 1) < n)%nat
            by (apply nth_error_Some; intros F;
                discriminate (eq_trans (eq_sym F) H2))
      end.
      lia.
    + apply case_findings_at_In. exists w1, w2; auto.
Qed.

(** X3. The verdict lists a case_error finding exactly when [error_word]
    is a token of the sentence and the explanation names a case; the
    finding carries [error_word] and the position of its first
    occurrence. *)
Theorem case_error_finding_iff
        (lna : pystr -> nat -> list N) (sentence error_word explanation_ : pystr) :
  exists v,
    validate_single_error lna sentence error_word explanation_ = Ok v /\
    forall (w : pystr) (pos : Z),
      In (case_error w pos) (errors v) <->
      w = error_word /\
      _is_case_error lna error_word explanation_ = true /\
      exists pre, first_occurrence error_word (PyStr.split sentence) pre /\
                  pos = len pre.
Proof.
  destruct (validate_single_error_findings lna sentence error_word explanation_)
    as (v & E & Hl & _).
  exists v; split; [exact E|]. intros w pos.
  rewrite Hl, findings_of_In. split.
  - intros [(i & word & _ & H) | [(i & _ & H) | H]].
    + apply verb_findings_at_In in H. destruct H as (verb' & _ & _ & _ & F).
      discriminate.
    + apply case_findings_at_In in H.
      destruct H as (w1 & w2 & _ & _ & _ & _ & F). discriminate.
    + apply case_error_finding_In in H. destruct H as (pre & H & C & F).
      injection F as -> ->. eauto.
  - intros (-> & C & pre & H & ->). right; right.
    apply case_error_finding_In. exists pre; auto.
Qed.

(** X4. The findings come in the order of the three blocks: all
    verb_agreement findings, then all case_agreement findings, then at
    most one case_error finding. *)
Theorem findings_in_block_order
        (lna : pystr -> nat -> list N) (sentence error_word explanation_ : pystr) :
  exists v vs cs es,
    validate_single_error lna sentence error_word explanation_ = Ok v /\
    errors v = vs ++ cs ++ es /\
    Forall (fun f => is_verb_agreement f = true) vs /\
    Forall (fun f => is_case_agreement f = true) cs /\
    Forall (fun f => is_case_error f = true) es /\
    (List.length es <= 1)%nat.
Proof.
  destruct (validate_single_error_findings lna sentence error_word explanation_)
    as (v & E & Hl & _).
  exists v. do 3 eexists. split; [exact E|]. split; [exact Hl|].
  split; [apply verb_findings_kind|]. split; [apply case_findings_kind|].
  apply case_error_finding_kind.
Qed.

(* ================================================================== *)
(** ** The weighted sum, continued *)

Lemma total_weight_cons (f : ErrorDetail) (l : list ErrorDetail) :
  total_weight (f :: l) = weight f + total_weight l.
Proof.
  unfold total_weight, count_findings, len.
  destruct f; cbn [filter is_verb_agreement is_case_agreement is_case_error weight];
    cbn [List.length]; lia.
Qed.

Lemma total_weight_app (l1 l2 : list ErrorDetail) :
  total_weight (l1 ++ l2) = total_weight l1 + total_weight l2.
Proof.
  induction l1 as [|f l1 IH]; cbn [app].
  - rewrite total_weight_nil. lia.
  - rewrite !total_weight_cons, IH. lia.
Qed.

Lemma weight_pos (f : ErrorDetail) : 1 <= weight f <= 2.
Proof. destruct f; simpl; lia. Qed.

Lemma total_weight_nonneg (l : list ErrorDetail) : 0 <= total_weight l.
Proof.
  induction l as [|f l IH]; [rewrite total_weight_nil; lia|].
  rewrite total_weight_cons. pose proof (weight_pos f). lia.
Qed.

Lemma total_weight_one (l : list ErrorDetail) :
  total_weight l = 1 <-> exists f, l = [f] /\ is_case_agreement f = false.
Proof.
  split.
  - destruct l as [|f l]; [rewrite total_weight_nil; lia|].
    rewrite total_weight_cons. intros H.
    pose proof (weight_pos f). pose proof (total_weight_nonneg l).
    destruct l as [|f' l].
    + exists f. split; [reflexivity|]. destruct f; simpl in *; [reflexivity | lia | reflexivity].
    + rewrite total_weight_cons in *. pose proof (weight_pos f').
      pose proof (total_weight_nonneg l). lia.
  - intros (f & -> & Hf). rewrite total_weight_cons, total_weight_nil.
    destruct f; simpl in *; [lia | discriminate | lia].
Qed.

(** X5. A verdict is valid exactly when it lists one finding and that
    finding is not a case_agreement one: a sentence with a failing
    adjective-noun pair is never valid, whatever else is found. *)
Theorem valid_iff_single_light_finding
        (lna : pystr -> nat -> list N) (sentence error_word explanation_ : pystr) :
  exists v,
    validate_single_error lna sentence error_word explanation_ = Ok v /\
    (valid v = true <->
     exists f, errors v = [f] /\ is_case_agreement f = false) /\
    (forall ws ps, In (case_agreement ws ps) (errors v) -> valid v = false).
Proof.
  destruct (validate_single_error_findings lna sentence error_word explanation_)
    as (v & E & _ & Hc & Hv).
  exists v; split; [exact E|]. rewrite Hv, Hc, Z.eqb_eq, total_weight_one.
  split; [reflexivity|].
  intros ws ps Hin. apply Z.eqb_neq. intros H1.
  apply total_weight_one in H1. destruct H1 as (f & Hf & Hk).
  rewrite Hf in Hin. destruct Hin as [->|[]]. discriminate Hk.
Qed.

Lemma flat_map_map_in {A B C : Type} (h : A -> B) (g : B -> list C) (xs : list A) :
  flat_map g (List.map h xs) = flat_map (fun a => g (h a)) xs.
Proof.
  induction xs as [|x xs IH]; cbn [List.map flat_map]; [reflexivity|].
  rewrite IH; reflexivity.
Qed.

Lemma flat_map_enumerate_from {A B : Type} (g : Z * A -> list B) (l : list A) (k : Z) :
  flat_map g (enumerate_from k l)
  = flat_map (fun m : nat => match nth_error l m with
                             | Some x => g (k + Z.of_nat m, x)
                             | None => []
                             end)
             (seq 0 (List.length l)).
Proof.
  revert k; induction l as [|x l IH]; intros k; [reflexivity|].
  cbn [enumerate_from flat_map List.length seq nth_error].
  rewrite Z.add_0_r. f_equal.
  rewrite <- seq_shift, flat_map_map_in, IH.
  apply flat_map_ext. intros m. cbn [nth_error].
  destruct (nth_error l m); [|reflexivity].
  do 2 f_equal. lia.
Qed.

Lemma flat_map_enumerate {A B : Type} (g : Z * A -> list B) (l : list A) :
  flat_map g (enumerate l)
  = flat_map (fun i : Z => match nth_error l (Z.to_nat i) with
                           | Some x => g (i, x)
                           | None => []
                           end)
             (range (len l)).
Proof.
  unfold enumerate, range, len. rewrite flat_map_enumerate_from, Nat2Z.id.
  rewrite flat_map_map_in. apply flat_map_ext. intros m.
  rewrite Nat2Z.id. reflexivity.
Qed.

Lemma range_last (n : Z) : 1 <= n -> range n = range (n - 1) ++ [n - 1].
Proof.
  intros H. unfold range.
  replace (Z.to_nat n) with (S (Z.to_nat (n - 1))) by lia.
  rewrite seq_S, map_app. cbn [List.map Nat.add]. do 2 f_equal. lia.
Qed.

Lemma len_range (n : Z) : len (range n) = Z.max 0 n.
Proof. unfold len, range. rewrite length_map, length_seq. lia. Qed.

Lemma total_weight_flat_map_pair {A : Type} (f g : A -> list ErrorDetail) (xs : list A) :
  (forall x, total_weight (f x) + total_weight (g x) <= 2) ->
  total_weight (flat_map f xs) + total_weight (flat_map g xs) <= 2 * len xs.
Proof.
  intros H. induction xs as [|x xs IH]; cbn [flat_map].
  - rewrite total_weight_nil. unfold len; simpl; lia.
  - rewrite !total_weight_app. specialize (H x).
    unfold len in *. cbn [List.length]. lia.
Qed.

Lemma pair_turn_weight (words : list pystr) (i : Z) :
  total_weight (match nth_error words (Z.to_nat i) with
                | Some x => verb_findings_at words (i, x)
                | None => []
                end)
  + total_weight (case_findings_at words i) <= 2.
Proof.
  unfold case_findings_at, verb_findings_at.
  destruct (nth_error words (Z.to_nat i)) as [w|];
    [| rewrite total_weight_nil; lia].
  destruct (dict_mem w pronoun_verb_agreement) eqn:M.
  - apply known_pronoun_mem in M.
    destruct (nth_error words (Z.to_nat (i + 1))) as [w2|];
      [| rewrite total_weight_nil; lia].
    rewrite (pronoun_not_adjective_shaped w w2 M). cbn [andb].
    destruct (_check_verb_agreement w w2) as [[|]|];
      rewrite ?total_weight_cons, ?total_weight_nil; simpl; lia.
  - destruct (nth_error words (Z.to_nat (i + 1))) as [w2|];
      [| rewrite total_weight_nil; lia].
    destruct (_is_adjective_noun_pair w w2 && negb (_check_case_agreement w w2));
      rewrite ?total_weight_cons, ?total_weight_nil; simpl; lia.
Qed.

Lemma case_error_finding_weight (ice : pystr -> bool) (words : list pystr)
      (error_word : pystr) :
  0 <= total_weight (case_error_finding ice words error_word) <= 1.
Proof.
  unfold case_error_finding.
  destruct (list_in error_word words && ice error_word);
    [| rewrite total_weight_nil; lia].
  destruct (list_index error_word words);
    rewrite ?total_weight_cons, ?total_weight_nil; simpl; lia.
Qed.

Lemma verb_findings_over_pairs (words : list pystr) :
  flat_map (verb_findings_at words) (enumerate words)
  = flat_map (fun i : Z => match nth_error words (Z.to_nat i) with
                           | Some x => verb_findings_at words (i, x)
                           | None => []
                           end)
             (range (len words - 1)).
Proof.
  rewrite flat_map_enumerate.
  destruct (Z.eq_dec (len words) 0) as [E|E].
  - rewrite E. reflexivity.
  - pose proof (len_nonneg words).
    rewrite (range_last (len words)) by lia.
    rewrite flat_map_app. cbn [flat_map].
    replace (match nth_error words (Z.to_nat (len words - 1)) with
             | Some x => verb_findings_at words (len words - 1, x)
             | None => []
             end) with (@nil ErrorDetail); [rewrite !app_nil_r; reflexivity|].
    destruct (nth_error words (Z.to_nat (len words - 1))) as [w|]; [|reflexivity].
    unfold verb_findings_at.
    rewrite (nth_error_beyond words (len words - 1 + 1)) by lia.
    destruct (dict_mem w pronoun_verb_agreement); reflexivity.
Qed.

(** X6. The counter is bounded by the number of adjacent pairs: each pair
    adds at most 2 (a pronoun is never adjective-shaped, so one pair never
    adds 1 and 2 together) and the case_error block at most 1, hence
    [0 <= error_count <= 2 * max(0, len(words) - 1) + 1]; a sentence of
    one token has [error_count <= 1]. *)
Theorem error_count_bounds
        (lna : pystr -> nat -> list N) (sentence error_word explanation_ : pystr) :
  exists v,
    validate_single_error lna sentence error_word explanation_ = Ok v /\
    0 <= error_count v <= 2 * Z.max 0 (len (PyStr.split sentence) - 1) + 1.
Proof.
  destruct (validate_single_error_findings lna sentence error_word explanation_)
    as (v & E & Hl & Hc & _).
  exists v; split; [exact E|]. rewrite Hc, Hl. unfold findings_of.
  rewrite !total_weight_app, verb_findings_over_pairs.
  pose proof (total_weight_flat_map_pair _ _ (range (len (PyStr.split sentence) - 1))
                (pair_turn_weight (PyStr.split sentence))) as Hp.
  rewrite len_range in Hp.
  pose proof (case_error_finding_weight
                (fun w => _is_case_error lna w explanation_)
                (PyStr.split sentence) error_word).
  match goal with
  | |- 0 <= total_weight ?a + (total_weight ?b + _) <= _ =>
      pose proof (total_weight_nonneg a); pose proof (total_weight_nonneg b)
  end.
  unfold pystr in *. lia.
Qed.

Lemma flat_map_all_nil {A B : Type} (g : A -> list B) (xs : list A) :
  (forall x, In x xs -> g x = []) -> flat_map g xs = [].
Proof.
  induction xs as [|x xs IH]; intros H; cbn [flat_map]; [reflexivity|].
  rewrite (H x) by (left; reflexivity). apply IH.
  intros y Hy. apply H. right; assumption.
Qed.

(** X7. A sentence without findings: when no token is a known pronoun,
    no token passes the adjective-shape gate, and the error word is
    absent or the explanation names no case, the verdict has
    [error_count = 0], no findings, and is not valid. *)
Theorem quiet_sentence_is_invalid
        (lna : pystr -> nat -> list N) (sentence error_word explanation_ : pystr) :
  (forall t, In t (PyStr.split sentence) -> ~ known_pronoun t) ->
  (forall t, In t (PyStr.split sentence) -> ~ adjective_shaped t) ->
  (~ In error_word (PyStr.split sentence) \/
   _is_case_error lna error_word explanation_ = false) ->
  validate_single_error lna sentence error_word explanation_
  = Ok {| valid := false; error_count := 0; errors := [];
          message := u"Multiple errors detected: 0" |}.
Proof.
  intros Hp Ha Hc.
  destruct (validate_single_error_run lna sentence error_word explanation_)
    as (count & l & E & Hw & _).
  destruct (validate_single_error_findings lna sentence error_word explanation_)
    as (v & E' & Hl & _).
  rewrite E in E'. injection E' as <-. cbn [errors fst snd] in *.
  assert (Hnil : l = []).
  { rewrite Hl. unfold findings_of.
    rewrite (flat_map_all_nil (verb_findings_at (PyStr.split sentence))),
            (flat_map_all_nil (case_findings_at (PyStr.split sentence))).
    - unfold case_error_finding.
      destruct Hc as [Hc|Hc].
      + destruct (list_in error_word (PyStr.split sentence)) eqn:Hin; [|reflexivity].
        apply list_in_spec in Hin. contradiction.
      + rewrite Hc, andb_false_r. reflexivity.
    - intros i _. unfold case_findings_at. unfold pystr.
      destruct (nth_error (PyStr.split sentence) (Z.to_nat i)) as [w1|] eqn:N1;
        [|reflexivity].
      destruct (nth_error (PyStr.split sentence) (Z.to_nat (i + 1))) as [w2|];
        [|reflexivity].
      apply nth_error_In in N1. apply Ha in N1. unfold adjective_shaped in N1.
      change (_is_adjective_noun_pair w1 w2) with (_is_adjective_noun_pair w1 []).
      destruct (_is_adjective_noun_pair w1 []); [congruence | reflexivity].
    - intros [i word] Hin. apply enumerate_In in Hin. destruct Hin as [_ Hn].
      apply nth_error_In in Hn. apply Hp in Hn. unfold verb_findings_at.
      destruct (dict_mem word pronoun_verb_agreement) eqn:M; [|reflexivity].
      apply known_pronoun_mem in M. contradiction. }
  rewrite Hnil in Hw, E. rewrite total_weight_nil in Hw. rewrite Hw in E. exact E.
Qed.

(** X8. The error word and the explanation reach the verdict only through
    the case_error block.  Against a run of the same sentence with an
    absent word, a run either lists the same findings with the same
    counter, or the same findings followed by one case_error finding with
    the counter one higher; the latter exactly when the word is a token
    and the explanation names a case. *)
Theorem case_error_block_adds_at_most_one
        (lna : pystr -> nat -> list N)
        (sentence error_word explanation_ absent_word other_explanation : pystr) :
  ~ In absent_word (PyStr.split sentence) ->
  exists v v0,
    validate_single_error lna sentence error_word explanation_ = Ok v /\
    validate_single_error lna sentence absent_word other_explanation = Ok v0 /\
    ((In error_word (PyStr.split sentence) /\
      _is_case_error lna error_word explanation_ = true /\
      (exists pos, errors v = errors v0 ++ [case_error error_word pos]) /\
      error_count v = error_count v0 + 1)
     \/
     ((~ In error_word (PyStr.split sentence) \/
       _is_case_error lna error_word explanation_ = false) /\
      errors v = errors v0 /\
      error_count v = error_count v0)).
Proof.
  intros Habs.
  destruct (validate_single_error_findings lna sentence error_word explanation_)
    as (v & E & Hl & Hc & _).
  destruct (validate_single_error_findings lna sentence absent_word other_explanation)
    as (v0 & E0 & Hl0 & Hc0 & _).
  exists v, v0. split; [exact E|]. split; [exact E0|].
  rewrite Hc, Hc0, Hl, Hl0. unfold findings_of.
  assert (H0 : case_error_finding (fun w => _is_case_error lna w other_explanation)
                 (PyStr.split sentence) absent_word = []).
  { unfold case_error_finding.
    destruct (list_in absent_word (PyStr.split sentence)) eqn:Hin; [|reflexivity].
    apply list_in_spec in Hin. contradiction. }
  rewrite H0, !app_nil_r. unfold case_error_finding.
  destruct (list_in error_word (PyStr.split sentence)) eqn:Hin.
  - destruct (_is_case_error lna error_word explanation_) eqn:C; cbn [andb].
    + left. destruct (list_index_total _ _ Hin) as (idx & ->).
      apply list_in_spec in Hin. repeat split; try assumption.
      * exists idx. rewrite app_assoc. reflexivity.
      * rewrite !total_weight_app, total_weight_cons, total_weight_nil.
        simpl. lia.
    + right. rewrite !app_nil_r. auto.
  - right. cbn [andb]. rewrite !app_nil_r. split; [|auto].
    left. intros F. apply list_in_spec in F. congruence.
Qed.

(* ================================================================== *)
(** ** The checkers, pronoun by pronoun and ending by ending *)

Ltac by_endings :=
  cbv -[PyStr.endswith];
  repeat match goal with
         | |- context [PyStr.endswith ?a ?b] => destruct (PyStr.endswith a b)
         end;
  reflexivity.

Lemma check_verb_agreement_ma (verb : pystr) :
  _check_verb_agreement (u"ma") verb = Ok (PyStr.endswith verb (u"n")).
Proof. by_endings. Qed.

Lemma check_verb_agreement_sa (verb : pystr) :
  _check_verb_agreement (u"sa") verb = Ok (PyStr.endswith verb (u"d")).
Proof. by_endings. Qed.

Lemma check_verb_agreement_ta (verb : pystr) :
  _check_verb_agreement (u"ta") verb
  = Ok (PyStr.endswith verb (u"b")
        || negb (PyStr.endswith verb (u"n") || PyStr.endswith verb (u"d")
                 || PyStr.endswith verb (u"me") || PyStr.endswith verb (u"te")
                 || PyStr.endswith verb (u"vad"))).
Proof. by_endings. Qed.

Lemma check_verb_agreement_me (verb : pystr) :
  _check_verb_agreement (u"me") verb = Ok (PyStr.endswith verb (u"me")).
Proof. by_endings. Qed.

Lemma check_verb_agreement_te (verb : pystr) :
  _check_verb_agreement (u"te") verb = Ok (PyStr.endswith verb (u"te")).
Proof. by_endings. Qed.

Lemma check_verb_agreement_nad (verb : pystr) :
  _check_verb_agreement (u"nad") verb
  = Ok (PyStr.endswith verb (u"vad") || PyStr.endswith verb (u"id")).
Proof. by_endings. Qed.

Lemma check_verb_agreement_unknown (pronoun verb : pystr) :
  ~ known_pronoun pronoun -> _check_verb_agreement pronoun verb = Ok true.
Proof.
  intros H. unfold _check_verb_agreement.
  destruct (dict_mem pronoun pronoun_verb_agreement) eqn:M; [|reflexivity].
  apply known_pronoun_mem in M. contradiction.
Qed.

(** X9. The verb agreement checker never raises, and what it decides is
    fixed by the pronoun: an unknown pronoun always agrees; "ma" agrees
    with the verbs ending in "n", "sa" in "d", "me" in "me", "te" in "te",
    "nad" in "vad" or "id"; "ta" agrees with a verb that ends in "b" or
    that ends in none of "n", "d", "me", "te", "vad". *)
Theorem check_verb_agreement_by_pronoun (verb : pystr) :
  (forall pronoun, ~ known_pronoun pronoun ->
                   _check_verb_agreement pronoun verb = Ok true)
  /\ agrees_iff (u"ma") verb (ends_with verb (u"n"))
  /\ agrees_iff (u"sa") verb (ends_with verb (u"d"))
  /\ agrees_iff (u"ta") verb
       (ends_with verb (u"b") \/
        ~ (ends_with verb (u"n") \/ ends_with verb (u"d") \/
           ends_with verb (u"me") \/ ends_with verb (u"te") \/
           ends_with verb (u"vad")))
  /\ agrees_iff (u"me") verb (ends_with verb (u"me"))
  /\ agrees_iff (u"te") verb (ends_with verb (u"te"))
  /\ agrees_iff (u"nad") verb (ends_with verb (u"vad") \/ ends_with verb (u"id")).
Proof.
  split; [intros p H; apply check_verb_agreement_unknown; exact H|].
  unfold agrees_iff.
  rewrite check_verb_agreement_ma, check_verb_agreement_sa,
          check_verb_agreement_ta, check_verb_agreement_me,
          check_verb_agreement_te, check_verb_agreement_nad.
  repeat split; eexists; (split; [reflexivity|]);
    rewrite ?orb_true_iff, ?negb_true_iff, ?orb_false_iff, <- ?endswith_spec;
    try reflexivity.
  - rewrite <- !not_true_iff_false. tauto.
Qed.

Lemma ends_with_last (s a : pystr) (c : N) :
  ends_with s (a ++ [c]) -> ends_with s [c].
Proof. intros (p & ->). exists (p ++ a). rewrite app_assoc. reflexivity. Qed.

Lemma ends_with_last_inj (s : pystr) (c d : N) :
  ends_with s [c] -> ends_with s [d] -> c = d.
Proof.
  intros (p & ->) (q & E). apply app_inj_tail in E. destruct E as [_ E]. exact E.
Qed.

Lemma agreement_by_last (w1 w2 : pystr) (c : N) :
  ends_with w1 [c] -> c <> 116%N -> c <> 248%N -> c <> 97%N ->
  (_check_case_agreement w1 w2 = true <->
   c = 101%N /\
   (ends_with w2 (u"i") \/ ends_with w2 (u"e") \/
    ends_with w2 (u"a") \/ ends_with w2 (u"u"))).
Proof.
  intros Hc Ht Ho Ha. rewrite check_case_agreement_unfold.
  rewrite !orb_true_iff, !andb_true_iff, !orb_true_iff, !endswith_spec.
  assert (L : forall (a : pystr) (d : N), ends_with w1 (a ++ [d]) -> c = d).
  { intros a d H. apply ends_with_last in H. exact (ends_with_last_inj _ _ _ Hc H). }
  assert (Lt : ~ ends_with w1 (u"t")) by (intros H; apply (L [] 116%N) in H; congruence).
  assert (Lat : ~ ends_with w1 (u"at"))
    by (intros H; apply (L [97%N] 116%N) in H; congruence).
  assert (Lut : ~ ends_with w1 (u"ut"))
    by (intros H; apply (L [117%N] 116%N) in H; congruence).
  assert (Let_ : ~ ends_with w1 (u"et"))
    by (intros H; apply (L [101%N] 116%N) in H; congruence).
  assert (Lo : ~ ends_with w1 (u"ø"))
    by (intros H; apply (L [] 248%N) in H; congruence).
  assert (La : ~ ends_with w1 (u"a"))
    by (intros H; apply (L [] 97%N) in H; congruence).
  assert (Le : ends_with w1 (u"e") <-> c = 101%N).
  { split; [intros H; apply (L [] 101%N) in H; exact H | intros ->; exact Hc]. }
  tauto.
Qed.

(** A gated pair that fails the agreement check is reported, and the
    verdict that reports it is not valid. *)
Lemma failing_gated_pair_is_reported
      (lna : pystr -> nat -> list N) (sentence error_word explanation_ : pystr)
      (i : Z) (w1 w2 : pystr) :
  0 <= i ->
  nth_error (PyStr.split sentence) (Z.to_nat i) = Some w1 ->
  nth_error (PyStr.split sentence) (Z.to_nat (i + 1)) = Some w2 ->
  _is_adjective_noun_pair w1 w2 = true ->
  _check_case_agreement w1 w2 = false ->
  exists v,
    validate_single_error lna sentence error_word explanation_ = Ok v /\
    In (case_agreement [w1; w2] [i; i + 1]) (errors v) /\
    valid v = false.
Proof.
  intros Hi H1 H2 G C.
  destruct (validate_single_error_findings lna sentence error_word explanation_)
    as (v & E & Hl & Hc & Hv).
  exists v. split; [exact E|].
  assert (Hin : In (case_agreement [w1; w2] [i; i + 1]) (errors v)).
  { rewrite Hl. apply findings_of_In. right; left. exists i. split.
    - apply range_In_iff. split; [exact Hi|]. unfold len.
      match goal with
      | |- _ < Z.of_nat ?n - 1 =>
          assert (Z.to_nat (i + 1) < n)%nat
            by (apply nth_error_Some; intros F;
                discriminate (eq_trans (eq_sym F) H2))
      end.
      lia.
    - apply case_findings_at_In. exists w1, w2; auto. }
  split; [exact Hin|].
  rewrite Hv, Hc. apply Z.eqb_neq. intros T.
  apply total_weight_one in T. destruct T as (f & Hf & Hk).
  rewrite Hf in Hin. destruct Hin as [->|[]]. discriminate Hk.
Qed.

(** X10. For a pair that passes the adjective-shape gate the partitive row
    never applies: the pair agrees exactly when the first word ends in "e"
    (so in "ne", "line" or "ine") and the second in "i", "e", "a" or "u".
    A first word ending in "lik" or "kas" passes the gate and agrees with
    no second word at all; so whenever such a word is token [i] of a
    sentence and a token follows it, [validate_single_error] lists the
    case_agreement finding of the pair (i, i+1) and the verdict is not
    valid. *)
Theorem gated_pair_agreement (w1 w2 : pystr) :
  (_is_adjective_noun_pair w1 w2 = true ->
   (_check_case_agreement w1 w2 = true <->
    ends_with w1 (u"e") /\
    (ends_with w2 (u"i") \/ ends_with w2 (u"e") \/
     ends_with w2 (u"a") \/ ends_with w2 (u"u"))))
  /\ (ends_with w1 (u"lik") \/ ends_with w1 (u"kas") ->
      _is_adjective_noun_pair w1 w2 = true /\ _check_case_agreement w1 w2 = false)
  /\ (ends_with w1 (u"lik") \/ ends_with w1 (u"kas") ->
      forall (lna : pystr -> nat -> list N)
             (sentence error_word explanation_ : pystr) (i : Z),
        0 <= i ->
        nth_error (PyStr.split sentence) (Z.to_nat i) = Some w1 ->
        nth_error (PyStr.split sentence) (Z.to_nat (i + 1)) = Some w2 ->
        exists v,
          validate_single_error lna sentence error_word explanation_ = Ok v /\
          In (case_agreement [w1; w2] [i; i + 1]) (errors v) /\
          valid v = false).
Proof.
  assert (G : forall e0, In e0 [u"ne"; u"line"; u"lik"; u"kas"; u"ine"] ->
                         ends_with w1 e0 -> _is_adjective_noun_pair w1 w2 = true).
  { intros e0 Hin He. unfold _is_adjective_noun_pair.
    apply existsb_endswith. exists e0; auto. }
  assert (K : forall c, ends_with w1 [c] -> c = 107%N \/ c = 115%N ->
                        _check_case_agreement w1 w2 = false).
  { intros c Hc Hk.
    destruct (_check_case_agreement w1 w2) eqn:C; [|reflexivity].
    apply (agreement_by_last w1 w2 c Hc) in C;
      [destruct C as [C _]; lia | lia | lia | lia]. }
  assert (LK : ends_with w1 (u"lik") \/ ends_with w1 (u"kas") ->
               _is_adjective_noun_pair w1 w2 = true /\
               _check_case_agreement w1 w2 = false).
  { intros [H|H].
    - split; [apply (G (u"lik")); [simpl; tauto | exact H]|].
      apply (K 107%N); [|auto]. exact (ends_with_last w1 [108%N; 105%N] 107%N H).
    - split; [apply (G (u"kas")); [simpl; tauto | exact H]|].
      apply (K 115%N); [|auto]. exact (ends_with_last w1 [107%N; 97%N] 115%N H). }
  split; [|split].
  - intros H. unfold _is_adjective_noun_pair in H.
    apply existsb_endswith in H. destruct H as (e0 & Hin & He).
    assert (E : ends_with w1 (u"e") \/
                (exists c, ends_with w1 [c] /\ (c = 107%N \/ c = 115%N))).
    { cbn [In] in Hin.
      destruct Hin as [<-|[<-|[<-|[<-|[<-|[]]]]]].
      - left. exact (ends_with_last w1 [110%N] 101%N He).
      - left. exact (ends_with_last w1 [108%N; 105%N; 110%N] 101%N He).
      - right. exists 107%N. split; [|auto].
        exact (ends_with_last w1 [108%N; 105%N] 107%N He).
      - right. exists 115%N. split; [|auto].
        exact (ends_with_last w1 [107%N; 97%N] 115%N He).
      - left. exact (ends_with_last w1 [105%N; 110%N] 101%N He). }
    destruct E as [E | (c & Hc & Hk)].
    + rewrite (agreement_by_last w1 w2 101%N E) by lia. tauto.
    + rewrite (K c Hc Hk). split; [discriminate|].
      intros [E _]. pose proof (ends_with_last_inj w1 c 101%N Hc E). lia.
  - exact LK.
  - intros H lna sentence error_word explanation_ i Hi H1 H2.
    destruct (LK H) as [Hg Hc].
    exact (failing_gated_pair_is_reported lna sentence error_word explanation_
             i w1 w2 Hi H1 H2 Hg Hc).
Qed.

(* ================================================================== *)
(** ** The fix suggester, case by case *)

Lemma in_first_occurrence (x : pystr) (l : list pystr) :
  In x l -> exists pre, first_occurrence x l pre.
Proof.
  intros H. apply list_in_spec in H.
  destruct (list_index_total _ _ H) as (idx & E).
  apply list_index_spec in E. destruct E as (pre & Hpre & _). eauto.
Qed.

(** With any token [prev] just before the first occurrence of the word,
    the suggestion depends on [prev] alone. *)
Lemma suggest_fix_after_token (sentence error_word prev : pystr) :
  first_preceded_by sentence error_word prev ->
  suggest_fix sentence error_word
  = if dict_mem prev pronoun_verb_agreement
    then Ok (generate_verb_form prev error_word)
    else Ok None.
Proof.
  intros H.
  destruct (dict_mem prev pronoun_verb_agreement) eqn:M.
  - apply suggest_fix_after_pronoun; [exact H | apply known_pronoun_mem; exact M].
  - destruct H as (pre & post & Hs & Hn). unfold suggest_fix. rewrite Hs.
    replace (pre ++ prev :: error_word :: post)
      with ((pre ++ [prev]) ++ error_word :: post)
      by (rewrite <- app_assoc; reflexivity).
    set (words := (pre ++ [prev]) ++ error_word :: post).
    assert (Hin : list_in error_word words = true).
    { apply list_in_spec. unfold words. apply in_or_app. right; left; reflexivity. }
    rewrite Hin. cbn [negb].
    unfold list_index, words. rewrite (list_index_from_first 0 _ _ _ Hn).
    fold words. cbn [bind].
    assert (Hlen : 0 + len (pre ++ [prev]) = len pre + 1).
    { unfold len. rewrite length_app. simpl List.length. lia. }
    rewrite Hlen.
    destruct (Z.ltb_spec 0 (len pre + 1)) as [_|F];
      [|pose proof (len_nonneg pre); lia].
    match goal with
    | |- context [@list_get ?T ?ws ?i] => assert (Hget : @list_get T ws i = Ok prev)
    end.
    { apply list_get_nth; [pose proof (len_nonneg pre); lia|].
      replace (Z.to_nat (len pre + 1 - 1)) with (List.length pre) by (unfold len; lia).
      unfold words. rewrite <- app_assoc. rewrite nth_error_app2 by lia.
      rewrite Nat.sub_diag. reflexivity. }
    rewrite Hget. cbn [bind]. rewrite M. reflexivity.
Qed.

Lemma suggest_fix_first_token (sentence error_word : pystr) (post : list pystr) :
  PyStr.split sentence = error_word :: post ->
  suggest_fix sentence error_word = Ok None.
Proof.
  intros Hs. unfold suggest_fix. rewrite Hs.
  unfold list_in, list_index. cbn [existsb list_index_from].
  rewrite eqb_refl. reflexivity.
Qed.

Lemma generate_verb_form_known (pronoun error_word : pystr) :
  known_pronoun pronoun -> exists form, generate_verb_form pronoun error_word = Some form.
Proof.
  intros H. apply known_pronoun_cases in H.
  destruct H as [-> | [-> | [-> | [-> | [-> | ->]]]]]; eexists; reflexivity.
Qed.

(** X11. The suggester never raises, and it proposes a form exactly when
    the first occurrence of the word has a known pronoun just before it:
    it returns [None] when the word is the first token of the sentence
    and when the token before it is not a pronoun of the table. *)
Theorem suggest_fix_cases (sentence error_word : pystr) :
  (exists r, suggest_fix sentence error_word = Ok r)
  /\ (forall post, PyStr.split sentence = error_word :: post ->
                   suggest_fix sentence error_word = Ok None)
  /\ (forall prev, first_preceded_by sentence error_word prev ->
                   ~ known_pronoun prev ->
                   suggest_fix sentence error_word = Ok None)
  /\ (forall prev, first_preceded_by sentence error_word prev ->
                   known_pronoun prev ->
                   exists form, suggest_fix sentence error_word = Ok (Some form)).
Proof.
  assert (H3 : forall prev, first_preceded_by sentence error_word prev ->
                            ~ known_pronoun prev ->
                            suggest_fix sentence error_word = Ok None).
  { intros prev H Hk. rewrite (suggest_fix_after_token _ _ _ H).
    destruct (dict_mem prev pronoun_verb_agreement) eqn:M; [|reflexivity].
    apply known_pronoun_mem in M. contradiction. }
  assert (H4 : forall prev, first_preceded_by sentence error_word prev ->
                            known_pronoun prev ->
                            exists form, suggest_fix sentence error_word = Ok (Some form)).
  { intros prev H Hk. rewrite (suggest_fix_after_pronoun _ _ _ H Hk).
    destruct (generate_verb_form_known prev error_word Hk) as (form & ->). eauto. }
  split; [|split; [apply suggest_fix_first_token | split; assumption]].
  destruct (list_in error_word (PyStr.split sentence)) eqn:Hin.
  - apply list_in_spec in Hin. apply in_first_occurrence in Hin.
    destruct Hin as (pre & post & Hs & Hn).
    destruct pre as [|t pre] using rev_ind.
    + eexists. apply (suggest_fix_first_token _ _ post). exact Hs.
    + clear IHpre.
      assert (F : first_preceded_by sentence error_word t).
      { exists pre, post. split; [|exact Hn]. rewrite Hs, <- app_assoc. reflexivity. }
      destruct (dict_mem t pronoun_verb_agreement) eqn:M.
      * apply known_pronoun_mem in M. destruct (H4 t F M) as (form & ->). eauto.
      * eexists. apply (H3 t F). intros K. apply known_pronoun_mem in K. congruence.
  - eexists. apply suggest_fix_absent. intros F. apply list_in_spec in F. congruence.
Qed.

(** X12. The checker accepts what the suggester proposes after "ma", "sa",
    "me", "te" and "nad": the proposed form is the word with the pronoun's
    ending appended ("d" after "sa"), and [_check_verb_agreement] of that
    pronoun and the form is true.  After "ta" this can fail: "tuleme"
    comes back unchanged and still disagrees. *)
Theorem suggested_form_agrees (sentence error_word pronoun : pystr) :
  (In pronoun [u"ma"; u"sa"; u"me"; u"te"; u"nad"] ->
   first_preceded_by sentence error_word pronoun ->
   exists form,
     suggest_fix sentence error_word = Ok (Some form) /\
     _check_verb_agreement pronoun form = Ok true)
  /\ (first_preceded_by sentence error_word (u"sa") ->
      suggest_fix sentence error_word = Ok (Some (error_word ++ u"d")))
  /\ (suggest_fix (u"ta tuleme") (u"tuleme") = Ok (Some (u"tuleme")) /\
      _check_verb_agreement (u"ta") (u"tuleme") = Ok false).
Proof.
  assert (S : forall suffix : pystr,
             PyStr.endswith (error_word ++ suffix) suffix = true).
  { intros suffix. apply endswith_spec. exists error_word. reflexivity. }
  split; [|split; [|split; reflexivity]].
  - cbn [In]. intros [<-|[<-|[<-|[<-|[<-|[]]]]]] H.
    + rewrite (suggest_fix_after_pronoun _ _ _ H known_pronoun_ma).
      eexists; split; [reflexivity|].
      rewrite check_verb_agreement_ma, S. reflexivity.
    + assert (K : known_pronoun (u"sa")) by (unfold known_pronoun; simpl; tauto).
      rewrite (suggest_fix_after_pronoun _ _ _ H K).
      eexists; split; [reflexivity|].
      rewrite check_verb_agreement_sa, S. reflexivity.
    + rewrite (suggest_fix_after_pronoun _ _ _ H known_pronoun_me).
      eexists; split; [reflexivity|].
      rewrite check_verb_agreement_me, S. reflexivity.
    + rewrite (suggest_fix_after_pronoun _ _ _ H known_pronoun_te).
      eexists; split; [reflexivity|].
      rewrite check_verb_agreement_te, S. reflexivity.
    + rewrite (suggest_fix_after_pronoun _ _ _ H known_pronoun_nad).
      eexists; split; [reflexivity|].
      rewrite check_verb_agreement_nad, S. reflexivity.
  - intros H.
    assert (K : known_pronoun (u"sa")) by (unfold known_pronoun; simpl; tauto).
    rewrite (suggest_fix_after_pronoun _ _ _ H K). reflexivity.
Qed.

Lemma rstrip_spec (s chars : pystr) :
  exists q,
    s = PyStr.rstrip s chars ++ q /\
    Forall (fun c => In c chars) q /\
    (forall c, ends_with (PyStr.rstrip s chars) [c] -> ~ In c chars).
Proof.
  induction s as [|x s IH] using rev_ind.
  - exists []. rewrite rstrip_nil. split; [reflexivity|]. split; [constructor|].
    intros c (p & E). destruct p; discriminate.
  - rewrite rstrip_snoc. destruct (existsb (N.eqb x) chars) eqn:M.
    + destruct IH as (q & E & Hq & Hl). exists (q ++ [x]).
      split; [rewrite app_assoc, <- E; reflexivity|]. split; [|exact Hl].
      apply Forall_app. split; [exact Hq|]. constructor; [|constructor].
      apply existsb_exists in M. destruct M as (y & Hy & Exy).
      apply N.eqb_eq in Exy. subst y. exact Hy.
    + exists []. rewrite app_nil_r. split; [reflexivity|]. split; [constructor|].
      intros c (p & E) Hc. apply app_inj_tail in E. destruct E as [_ <-].
      assert (existsb (N.eqb x) chars = true)
        by (apply existsb_exists; exists x; split; [exact Hc | apply N.eqb_refl]).
      congruence.
Qed.

(** X13. After "ta" the suggester only ever cuts: the proposed form is a
    prefix of the word, what is cut off is made of "n" and "d" only, and
    the form does not end in "d". *)
Theorem suggest_fix_ta_cuts_a_tail (sentence error_word : pystr) :
  first_preceded_by sentence error_word (u"ta") ->
  exists form tail,
    suggest_fix sentence error_word = Ok (Some form) /\
    error_word = form ++ tail /\
    Forall (fun c => c = 110%N \/ c = 100%N) tail /\
    ~ ends_with form (u"d").
Proof.
  intros H. rewrite (suggest_fix_after_ta _ _ H).
  destruct (rstrip_spec error_word (u"n")) as (q1 & E1 & Hq1 & _).
  destruct (rstrip_spec (PyStr.rstrip error_word (u"n")) (u"d")) as (q2 & E2 & Hq2 & Hl).
  exists (PyStr.rstrip (PyStr.rstrip error_word (u"n")) (u"d")), (q2 ++ q1).
  split; [reflexivity|]. split; [|split].
  - rewrite app_assoc, <- E2. exact E1.
  - apply Forall_app. split.
    + eapply Forall_impl; [|exact Hq2]. intros c [<-|[]]. right; reflexivity.
    + eapply Forall_impl; [|exact Hq1]. intros c [<-|[]]. left; reflexivity.
  - intros F. apply (Hl 100%N F). left; reflexivity.
Qed.

(* ================================================================== *)
(** ** Tokens *)

Lemma split_go_tokens (s tok : pystr) :
  Forall (fun c => PyStr.isspace c = false) tok ->
  forall t, In t (PyStr.split_go s tok) ->
            t <> [] /\ Forall (fun c => PyStr.isspace c = false) t.
Proof.
  revert tok; induction s as [|c s IH]; intros tok Htok t; cbn [PyStr.split_go].
  - destruct tok as [|x tok]; [intros []|].
    intros [<-|[]]. split.
    + intros E. apply (f_equal (@List.length N)) in E.
      rewrite length_rev in E. discriminate.
    + apply Forall_rev. exact Htok.
  - destruct (PyStr.isspace c) eqn:Sp.
    + destruct tok as [|x tok].
      * apply IH. constructor.
      * intros [<-|H].
        -- split.
           ++ intros E. apply (f_equal (@List.length N)) in E.
              rewrite length_rev in E. discriminate.
           ++ apply Forall_rev. exact Htok.
        -- apply (IH []); [constructor | exact H].
    + apply IH. constructor; assumption.
Qed.

Lemma split_tokens (s t : pystr) :
  In t (PyStr.split s) -> t <> [] /\ Forall (fun c => PyStr.isspace c = false) t.
Proof. apply split_go_tokens. constructor. Qed.

(** X14. Tokens are non-empty and free of whitespace, so an error word
    that is empty or holds a whitespace code point (two words, say) is
    never a token: the suggester returns [None] for it and the verdict has
    no case_error finding, whatever the explanation says. *)
Theorem untokenizable_error_word
        (lna : pystr -> nat -> list N) (sentence error_word explanation_ : pystr) :
  error_word = [] \/ (exists c, In c error_word /\ PyStr.isspace c = true) ->
  ~ In error_word (PyStr.split sentence) /\
  suggest_fix sentence error_word = Ok None /\
  exists v,
    validate_single_error lna sentence error_word explanation_ = Ok v /\
    forall f, In f (errors v) -> is_case_error f = false.
Proof.
  intros H.
  assert (Hn : ~ In error_word (PyStr.split sentence)).
  { intros Hin. apply split_tokens in Hin. destruct Hin as [Hne Hsp].
    destruct H as [->|(c & Hc & Sp)]; [congruence|].
    rewrite Forall_forall in Hsp. rewrite (Hsp c Hc) in Sp. discriminate. }
  split; [exact Hn|]. split; [apply suggest_fix_absent; exact Hn|].
  destruct (validate_single_error_findings lna sentence error_word explanation_)
    as (v & E & Hl & _).
  exists v; split; [exact E|]. intros f Hf. rewrite Hl in Hf.
  apply findings_of_In in Hf. destruct Hf as [(i & word & _ & Hf) | [(i & _ & Hf) | Hf]].
  - apply verb_findings_at_In in Hf. destruct Hf as (verb & _ & _ & _ & ->). reflexivity.
  - apply case_findings_at_In in Hf.
    destruct Hf as (w1 & w2 & _ & _ & _ & _ & ->). reflexivity.
  - apply case_error_finding_In in Hf. destruct Hf as (pre & Hpre & _).
    exfalso. apply Hn. exact (first_occurrence_in _ _ _ Hpre).
Qed.

(* ================================================================== *)
(** ** The quoted sentence, continued *)

(** X15. Quoting and searching are inverse: in a text made of an
    apostrophe-free lead, an apostrophe, a non-empty apostrophe-free
    sentence, an apostrophe and any rest, the search returns that
    sentence. *)
Theorem re_search_quoted_first_segment (lead m rest : pystr) :
  ~ In apostrophe lead -> m <> [] -> ~ In apostrophe m ->
  re_search_quoted (lead ++ apostrophe :: m ++ apostrophe :: rest) = Some m.
Proof.
  intros Hl Hm Hn. induction lead as [|c lead IH]; cbn [re_search_quoted app].
  - rewrite N.eqb_refl, (span_unquoted_run m rest Hn).
    destruct m as [|x m]; [congruence | reflexivity].
  - destruct (N.eqb c apostrophe) eqn:C.
    + apply N.eqb_eq in C. exfalso. apply Hl. left; exact C.
    + apply IH. intros F. apply Hl. right; exact F.
Qed.

(* ================================================================== *)
(** ** The quiz runner, continued *)

Lemma filter_length_all {A : Type} (p : A -> bool) (l : list A) :
  List.length (filter p l) = List.length l <-> Forall (fun x => p x = true) l.
Proof.
  induction l as [|x l IH]; cbn [filter List.length].
  - split; [constructor | reflexivity].
  - pose proof (filter_length_le p l) as Hle.
    destruct (p x) eqn:E; cbn [List.length]; split.
    + intros H. constructor; [exact E | apply IH; lia].
    + intros H. inversion H; subst. f_equal. apply IH; assumption.
    + intros H. lia.
    + intros H. inversion H; subst. congruence.
Qed.

Lemma Selects_length (qs : list Question) (ds : list Detail.t) :
  Selects qs ds -> (List.length ds <= List.length qs)%nat.
Proof. induction 1; cbn [List.length]; lia. Qed.

(** X16. The counts of a quiz summary add up: valid and invalid questions
    are both non-negative and sum to [total_questions], which is at most
    the number of question records; [valid_questions] counts the entries
    whose verdict is valid, and [all_valid] holds exactly when
    [invalid_questions] is 0, that is when every entry is valid. *)
Theorem quiz_summary_counts
        (lna : pystr -> nat -> list N) (quiz_data : QuizData) :
  exists r,
    analyze_error_detection_quiz lna quiz_data = Ok r /\
    valid_questions r + invalid_questions r = total_questions r /\
    0 <= valid_questions r /\ 0 <= invalid_questions r /\
    total_questions r <= len (get_questions quiz_data) /\
    valid_questions r
    = len (filter (fun d => valid (Detail.validation d)) (details r)) /\
    (all_valid r = true <-> invalid_questions r = 0) /\
    (all_valid r = true <->
     Forall (fun d => valid (Detail.validation d) = true) (details r)).
Proof.
  unfold analyze_error_detection_quiz.
  destruct (quiz_loop_selects lna (get_questions quiz_data) []) as (ds & E & HS).
  rewrite E. cbn [bind app]. eexists; split; [reflexivity|].
  cbn [valid_questions invalid_questions total_questions details all_valid].
  rewrite sum_ones_filter.
  pose proof (filter_length_le (fun d => valid (Detail.validation d)) ds) as Hle.
  pose proof (Selects_length _ _ HS) as Hlen.
  pose proof (filter_length_all (fun d => valid (Detail.validation d)) ds) as Hall.
  unfold len in *. rewrite Z.eqb_eq.
  repeat split; try lia.
  - intros H. apply Hall. lia.
  - intros H. apply Hall in H. lia.
Qed.

Section QuizDetails.

Variable lower_nonascii : pystr -> nat -> list N.

Lemma quiz_loop_details (all qs : list Question) (acc : list Detail.t)
      (P : Detail.t -> Prop) :
  (forall q sentence v,
      In q all ->
      re_search_quoted (question q) = Some sentence ->
      validate_single_error lower_nonascii sentence (correctAnswer q) (explanation q)
      = Ok v ->
      P {| Detail.question := question q; Detail.sentence := sentence;
           Detail.error_word := correctAnswer q; Detail.validation := v |}) ->
  (forall q, In q qs -> In q all) ->
  Forall P acc ->
  exists ds, for_each qs (quiz_loop_body lower_nonascii) acc = Ok ds /\ Forall P ds.
Proof.
  intros HP Hsub.
  apply (for_each_inv (Forall P) (fun q => In q all)); [exact Hsub|].
  intros st q Hq Hst. unfold quiz_loop_body.
  destruct (re_search_quoted (question q)) as [sentence|] eqn:R; [|eauto].
  destruct (validate_single_error_run lower_nonascii sentence
              (correctAnswer q) (explanation q)) as (count & l & E & _).
  rewrite E. cbn [bind]. eexists; split; [reflexivity|].
  apply Forall_app. split; [exact Hst|]. constructor; [|constructor].
  apply (HP q sentence _ Hq R E).
Qed.

End QuizDetails.

(** X17. Every entry of [details] comes from a record of the quiz: it
    carries the record's question text and answer, its sentence is what
    the search finds in the text (non-empty, without apostrophe), and its
    verdict is the aggregator's verdict on that sentence, the record's
    answer and the record's explanation. *)
Theorem quiz_details_come_from_records
        (lna : pystr -> nat -> list N) (quiz_data : QuizData) :
  exists r,
    analyze_error_detection_quiz lna quiz_data = Ok r /\
    Forall (fun d =>
              exists q,
                In q (get_questions quiz_data) /\
                Detail.question d = question q /\
                Detail.error_word d = correctAnswer q /\
                re_search_quoted (question q) = Some (Detail.sentence d) /\
                Detail.sentence d <> [] /\
                ~ In apostrophe (Detail.sentence d) /\
                validate_single_error lna (Detail.sentence d) (Detail.error_word d)
                                      (explanation q)
                = Ok (Detail.validation d))
           (details r).
Proof.
  unfold analyze_error_detection_quiz.
  match goal with
  | |- context [Forall ?P _] =>
      destruct (quiz_loop_details lna (get_questions quiz_data)
                  (get_questions quiz_data) [] P) as (ds & E & HF)
  end.
  - intros q sentence v Hq R Hv. exists q. cbn.
    destruct (re_search_quoted_sound _ _ R) as (a & b & _ & Hne & Hno).
    auto 10.
  - auto.
  - constructor.
  - rewrite E. cbn [bind]. eexists; split; [reflexivity|]. exact HF.
Qed.

(* ================================================================== *)
(** ** The case-error checker and letter case *)

Lemma lower_from_app (lna : pystr -> nat -> list N) (whole a b : pystr) (i : nat) :
  PyStr.lower_from lna whole i (a ++ b)
  = PyStr.lower_from lna whole i a
    ++ PyStr.lower_from lna whole (i + List.length a) b.
Proof.
  revert i; induction a as [|c a IH]; intros i; cbn [app PyStr.lower_from List.length].
  - rewrite Nat.add_0_r. reflexivity.
  - rewrite IH, <- app_assoc. do 3 f_equal. lia.
Qed.

Lemma lower_from_ascii (lna : pystr -> nat -> list N) (whole k : pystr) (i : nat) :
  ascii_only k -> PyStr.lower_from lna whole i k = List.map PyStr.ascii_lower k.
Proof.
  intros H; revert i; induction H as [|c k Hc _ IH]; intros i;
    cbn [PyStr.lower_from List.map]; [reflexivity|].
  apply N.ltb_lt in Hc. rewrite Hc, IH. reflexivity.
Qed.

Lemma startswith_app (kw rest : pystr) : PyStr.startswith (kw ++ rest) kw = true.
Proof.
  induction kw as [|c kw IH]; cbn [app PyStr.startswith].
  - destruct rest; reflexivity.
  - rewrite N.eqb_refl, IH. reflexivity.
Qed.

Lemma contains_cons (c : N) (s kw : pystr) :
  PyStr.contains (c :: s) kw = PyStr.startswith (c :: s) kw || PyStr.contains s kw.
Proof. reflexivity. Qed.

Lemma contains_app (x kw y : pystr) : PyStr.contains (x ++ kw ++ y) kw = true.
Proof.
  induction x as [|c x IH]; cbn [app].
  - destruct kw as [|k kw]; [destruct y; reflexivity|].
    change ((k :: kw) ++ y) with (k :: (kw ++ y)).
    rewrite contains_cons.
    change (k :: (kw ++ y)) with ((k :: kw) ++ y).
    rewrite startswith_app. reflexivity.
  - rewrite contains_cons, IH. apply orb_true_r.
Qed.

(** X18. The case-error checker finds its keywords in any mix of ASCII
    upper and lower case: an explanation that holds, anywhere, an ASCII
    run whose lower-casing is one of the keywords is a case explanation,
    whatever surrounds the run and whatever the flagged word is. *)
Theorem is_case_error_ignores_ascii_case
        (lna : pystr -> nat -> list N) (word before run after kw : pystr) :
  In kw case_keywords ->
  ascii_only run ->
  List.map PyStr.ascii_lower run = kw ->
  _is_case_error lna word (before ++ run ++ after) = true.
Proof.
  intros Hkw Hascii Hlow. unfold _is_case_error.
  apply existsb_exists. exists kw. split; [exact Hkw|].
  unfold PyStr.lower. rewrite !lower_from_app, (lower_from_ascii _ _ _ _ Hascii), Hlow.
  apply contains_app.
Qed.

(* ================================================================== *)
(** ** The further theorems at concrete inputs *)

(** Closes a goal whose hypotheses equate distinct literal strings. *)
Ltac literal_clash :=
  repeat match goal with
         | H : _ \/ _ |- _ => destruct H as [H|H]
         | H : False |- _ => destruct H
         | H : ?a = ?b |- _ => first [discriminate H | subst a | subst b]
         end.

Lemma quiet_sentence_is_invalid_witness :
  validate_single_error lower_keep (u"suur maja") (u"maja") (u"vale sona")
  = Ok {| valid := false; error_count := 0; errors := [];
          message := u"Multiple errors detected: 0" |}.
Proof.
  apply quiet_sentence_is_invalid.
  - intros t Ht K. apply known_pronoun_cases in K.
    vm_compute in Ht, K. literal_clash.
  - intros t Ht. vm_compute in Ht. unfold adjective_shaped.
    destruct Ht as [<-|[<-|[]]]; vm_compute; discriminate.
  - right. vm_compute. reflexivity.
Defined.

Lemma case_error_block_adds_at_most_one_witness :
  ~ In (u"kass") (PyStr.split (u"ma näed raamatut")) /\
  exists v v0,
    validate_single_error lower_keep (u"ma näed raamatut") (u"näed")
                          (u"peab olema partitiiv") = Ok v /\
    validate_single_error lower_keep (u"ma näed raamatut") (u"kass") (u"") = Ok v0 /\
    error_count v = 2 /\ error_count v0 = 1.
Proof.
  assert (H : ~ In (u"kass") (PyStr.split (u"ma näed raamatut"))).
  { vm_compute. intros F. literal_clash. }
  split; [exact H|].
  destruct (case_error_block_adds_at_most_one lower_keep (u"ma näed raamatut")
              (u"näed") (u"peab olema partitiiv") (u"kass") (u"") H)
    as (v & v0 & E & E0 & _).
  exists v, v0. split; [exact E|]. split; [exact E0|].
  rewrite run_weight_2 in E. injection E as <-.
  assert (E1 : validate_single_error lower_keep (u"ma näed raamatut") (u"kass") (u"")
               = Ok {| valid := true; error_count := 1;
                       errors := [verb_agreement (u"näed") 1];
                       message := u"Single error detected" |}) by reflexivity.
  rewrite E1 in E0. injection E0 as <-. split; reflexivity.
Defined.

Lemma check_verb_agreement_by_pronoun_witness :
  ~ known_pronoun (u"tema") /\
  _check_verb_agreement (u"tema") (u"tulen") = Ok true.
Proof.
  assert (H : ~ known_pronoun (u"tema")).
  { intros K. apply known_pronoun_cases in K. vm_compute in K. literal_clash. }
  split; [exact H|].
  exact (proj1 (check_verb_agreement_by_pronoun (u"tulen")) (u"tema") H).
Defined.

Lemma gated_pair_agreement_witness :
  _is_adjective_noun_pair (u"punane") (u"maja") = true /\
  (_check_case_agreement (u"punane") (u"maja") = true <->
   ends_with (u"punane") (u"e") /\
   (ends_with (u"maja") (u"i") \/ ends_with (u"maja") (u"e") \/
    ends_with (u"maja") (u"a") \/ ends_with (u"maja") (u"u")))
  /\ ends_with (u"sõbralik") (u"lik")
  /\ _check_case_agreement (u"sõbralik") (u"maja") = false
  /\ nth_error (PyStr.split (u"see sõbralik maja")) (Z.to_nat 1) = Some (u"sõbralik")
  /\ nth_error (PyStr.split (u"see sõbralik maja")) (Z.to_nat (1 + 1)) = Some (u"maja")
  /\ exists v,
       validate_single_error lower_keep (u"see sõbralik maja") (u"maja") (u"") = Ok v /\
       In (case_agreement [u"sõbralik"; u"maja"] [1; 1 + 1]) (errors v) /\
       valid v = false.
Proof.
  assert (G : _is_adjective_noun_pair (u"punane") (u"maja") = true) by reflexivity.
  assert (L : ends_with (u"sõbralik") (u"lik")).
  { apply endswith_spec. reflexivity. }
  assert (N1 : nth_error (PyStr.split (u"see sõbralik maja")) (Z.to_nat 1)
               = Some (u"sõbralik")) by reflexivity.
  assert (N2 : nth_error (PyStr.split (u"see sõbralik maja")) (Z.to_nat (1 + 1))
               = Some (u"maja")) by reflexivity.
  split; [exact G|]. split; [|split; [exact L|split; [|split; [exact N1|split; [exact N2|]]]]].
  - exact (proj1 (gated_pair_agreement (u"punane") (u"maja")) G).
  - exact (proj2 (proj1 (proj2 (gated_pair_agreement (u"sõbralik") (u"maja")))
                    (or_introl L))).
  - assert (P : 0 <= 1) by lia.
    exact (proj2 (proj2 (gated_pair_agreement (u"sõbralik") (u"maja")))
             (or_introl L) lower_keep (u"see sõbralik maja") (u"maja") (u"")
             1 P N1 N2).
Defined.

Lemma suggest_fix_cases_witness :
  (PyStr.split (u"tule koju") = u"tule" :: [u"koju"] /\
   suggest_fix (u"tule koju") (u"tule") = Ok None)
  /\ (first_preceded_by (u"poiss tule") (u"tule") (u"poiss") /\
      ~ known_pronoun (u"poiss") /\
      suggest_fix (u"poiss tule") (u"tule") = Ok None)
  /\ (first_preceded_by (u"sa tule") (u"tule") (u"sa") /\
      known_pronoun (u"sa") /\
      exists form, suggest_fix (u"sa tule") (u"tule") = Ok (Some form)).
Proof.
  assert (H1 : PyStr.split (u"tule koju") = u"tule" :: [u"koju"]) by reflexivity.
  assert (H2 : first_preceded_by (u"poiss tule") (u"tule") (u"poiss")).
  { exists [], []. split; [reflexivity|]. vm_compute. intros F. literal_clash. }
  assert (K2 : ~ known_pronoun (u"poiss")).
  { intros K. apply known_pronoun_cases in K. vm_compute in K. literal_clash. }
  assert (H3 : first_preceded_by (u"sa tule") (u"tule") (u"sa")).
  { exists [], []. split; [reflexivity|]. vm_compute. intros F. literal_clash. }
  assert (K3 : known_pronoun (u"sa")) by (unfold known_pronoun; simpl; tauto).
  split; [|split].
  - split; [exact H1|].
    exact (proj1 (proj2 (suggest_fix_cases (u"tule koju") (u"tule"))) _ H1).
  - split; [exact H2|]. split; [exact K2|].
    exact (proj1 (proj2 (proj2 (suggest_fix_cases (u"poiss tule") (u"tule")))) _ H2 K2).
  - split; [exact H3|]. split; [exact K3|].
    exact (proj2 (proj2 (proj2 (suggest_fix_cases (u"sa tule") (u"tule")))) _ H3 K3).
Defined.

Lemma suggested_form_agrees_witness :
  In (u"nad") [u"ma"; u"sa"; u"me"; u"te"; u"nad"] /\
  first_preceded_by (u"nad tule koju") (u"tule") (u"nad") /\
  exists form,
    suggest_fix (u"nad tule koju") (u"tule") = Ok (Some form) /\
    _check_verb_agreement (u"nad") form = Ok true.
Proof.
  assert (H1 : In (u"nad") [u"ma"; u"sa"; u"me"; u"te"; u"nad"]) by (simpl; tauto).
  assert (H2 : first_preceded_by (u"nad tule koju") (u"tule") (u"nad")).
  { exists [], [u"koju"]. split; [reflexivity|]. vm_compute. intros F. literal_clash. }
  split; [exact H1|]. split; [exact H2|].
  exact (proj1 (suggested_form_agrees (u"nad tule koju") (u"tule") (u"nad")) H1 H2).
Defined.

Lemma suggest_fix_ta_cuts_a_tail_witness :
  first_preceded_by (u"ta tulen") (u"tulen") (u"ta") /\
  exists form tail,
    suggest_fix (u"ta tulen") (u"tulen") = Ok (Some form) /\
    u"tulen" = form ++ tail /\
    Forall (fun c => c = 110%N \/ c = 100%N) tail /\
    ~ ends_with form (u"d").
Proof.
  assert (H : first_preceded_by (u"ta tulen") (u"tulen") (u"ta")).
  { exists [], []. split; [reflexivity|]. vm_compute. intros F. literal_clash. }
  split; [exact H|]. exact (suggest_fix_ta_cuts_a_tail _ _ H).
Defined.

Lemma untokenizable_error_word_witness :
  (exists c, In c (u"suur maja") /\ PyStr.isspace c = true) /\
  ~ In (u"suur maja") (PyStr.split (u"see on suur maja")) /\
  suggest_fix (u"see on suur maja") (u"suur maja") = Ok None.
Proof.
  assert (H : exists c, In c (u"suur maja") /\ PyStr.isspace c = true).
  { exists 32%N. split; [vm_compute; tauto | reflexivity]. }
  split; [exact H|].
  destruct (untokenizable_error_word lower_keep (u"see on suur maja") (u"suur maja")
              (u"partitiiv") (or_intror H)) as (Hn & Hs & _).
  split; assumption.
Defined.

Lemma re_search_quoted_first_segment_witness :
  ~ In apostrophe (u"Leia viga: ") /\ u"ma näed" <> [] /\
  ~ In apostrophe (u"ma näed") /\
  re_search_quoted (u"Leia viga: " ++ apostrophe :: u"ma näed"
                    ++ apostrophe :: u" ja 'teine'") = Some (u"ma näed").
Proof.
  assert (H1 : ~ In apostrophe (u"Leia viga: ")) by (vm_compute; intros F; literal_clash).
  assert (H2 : u"ma näed" <> []) by (vm_compute; discriminate).
  assert (H3 : ~ In apostrophe (u"ma näed")) by (vm_compute; intros F; literal_clash).
  split; [exact H1|]. split; [exact H2|]. split; [exact H3|].
  exact (re_search_quoted_first_segment _ _ _ H1 H2 H3).
Defined.

Lemma is_case_error_ignores_ascii_case_witness :
  In (u"partitiiv") case_keywords /\
  ascii_only (u"PartitiiV") /\
  List.map PyStr.ascii_lower (u"PartitiiV") = u"partitiiv" /\
  _is_case_error lower_keep (u"näed")
     (u"Siin peab olema " ++ u"PartitiiV" ++ u", mitte nimetav") = true.
Proof.
  assert (H1 : In (u"partitiiv") case_keywords) by (left; reflexivity).
  assert (H2 : ascii_only (u"PartitiiV")).
  { vm_compute. repeat constructor. }
  assert (H3 : List.map PyStr.ascii_lower (u"PartitiiV") = u"partitiiv") by reflexivity.
  split; [exact H1|]. split; [exact H2|]. split; [exact H3|].
  exact (is_case_error_ignores_ascii_case lower_keep _ _ _ _ _ H1 H2 H3).
Defined.
